(** * Distance to measure (gudhi.point_cloud.dtm)

    A shallow embedding of [src/python/gudhi/point_cloud/dtm.py]: the class
    [DTM] with its constructor and its three methods [fit], [transform] and
    [fit_transform], followed by the properties of the estimator.

    - Arrays are lists: a 2-D array is a list of rows, a 1-D array a list.
    - The array arithmetic the code uses ([**], [sum], [/]) is an interface
      ([Arith]); the structural results hold for every implementation of it,
      the analytic ones are proved for the exact real-number instance
      ([Arith_R]).  Rounding of machine floats is outside that instance.
    - Estimators live in a store indexed by references, methods run in a
      state-and-exception monad over that store.
    - The class [KNN] of [gudhi.point_cloud.knn] is imported by the module
      and is a parameter of the development. *)

From Stdlib Require Import Floats ZArith List String Reals Lra Lia.
From stdpp Require Import base option list gmap strings.

Local Open Scope string_scope.
Local Open Scope Z_scope.

(** ** Array arithmetic *)

(** The operations [transform] applies to numbers.  [npow] and [ndiv] are
    [**] and [/] on one element of an array, which numpy carries out without
    raising; [nsum] is the reduction of one row ([sum(-1)]); [of_int] the
    conversion applied to the integer [k] when an array is divided by it;
    [one] the literal [1.0].  [truediv] is [/] between two Python numbers,
    as in [1.0 / self.q]: it is [None] where Python raises
    [ZeroDivisionError], which the built-in [int] and [float] do on a zero
    divisor and a numpy scalar does not.  [nmul] is not used by the code;
    the closed formula of the documentation is written with it. *)
Class Arith (F : Type) := {
  npow : F -> F -> F;
  nsum : list F -> F;
  ndiv : F -> F -> F;
  truediv : F -> F -> option F;
  nmul : F -> F -> F;
  of_int : Z -> F;
  one : F
}.

(** ** Python values, exceptions *)

(** Values an option of the keyword bag can hold. *)
Inductive pyval :=
| PStr (s : string)
| PInt (z : Z)
| PBool (b : bool)
| PNone.

#[global] Instance pyval_eq_dec : EqDecision pyval.
Proof. solve_decision. Defined.

(** The exceptions the module can raise.  [ProviderError] carries what the
    neighbor search raised; [ReferenceError] is a method call through a
    reference that is bound to no object. *)
Inductive exn (E : Type) :=
| KeyError (key : string)
| AttributeError (attr : string)
| ZeroDivisionError
| ProviderError (e : E)
| ReferenceError.
Arguments KeyError {E} key.
Arguments AttributeError {E} attr.
Arguments ZeroDivisionError {E}.
Arguments ProviderError {E} e.
Arguments ReferenceError {E}.

(** References to estimator objects. *)
Abbreviation loc := positive (only parsing).

(** ** Slicing *)

(** [row[:stop]] on a Python sequence: a negative [stop] counts from the
    end, and the bound is clamped to the length. *)
Definition slice_to {A} (stop : Z) (row : list A) : list A :=
  if 0 <=? stop then take (Z.to_nat stop) row
  else take (length row - Z.to_nat (- stop))%nat row.

Section Estimator.
Context {F : Type} `{Arith F}.

Abbreviation vector := (list F) (only parsing).
Abbreviation matrix := (list (list F)) (only parsing).

(** *** The neighbor-search provider *)

(** Modelled from the spec: the class [KNN] of [gudhi.point_cloud.knn],
    which the module imports and whose source is not part of this
    development.  [KNN_init k return_index return_distance kwargs] is the
    constructor call, [KNN_fit] updates the search object in place and may
    raise, [KNN_transform] returns the array of neighbor distances of the
    query points or raises. *)
Variable KNN : Type.
Variable E : Type.
Variable KNN_init : Z -> bool -> bool -> gmap string pyval -> E + KNN.
Variable KNN_fit : KNN -> matrix -> (E + unit) * KNN.
Variable KNN_transform : KNN -> matrix -> E + matrix.

(** *** Objects and the store *)

(** The attributes of a [DTM] object.  [knn] is [None] as long as the
    attribute has not been assigned. *)
Record DTM := {
  k : Z;
  q : F;
  params : gmap string pyval;
  knn : option KNN
}.

Definition set_params (o : DTM) (p : gmap string pyval) : DTM :=
  {| k := o.(k); q := o.(q); params := p; knn := o.(knn) |}.

Definition set_knn (o : DTM) (n : KNN) : DTM :=
  {| k := o.(k); q := o.(q); params := o.(params); knn := Some n |}.

(** Computations over the store that return a value or raise. *)
Definition M (A : Type) : Type :=
  gmap loc DTM -> (exn E + A) * gmap loc DTM.

Definition ret {A} (a : A) : M A := fun h => (inr a, h).

Definition bind {A B} (c : M A) (f : A -> M B) : M B :=
  fun h => match c h with
           | (inl e, h') => (inl e, h')
           | (inr a, h') => f a h'
           end.

Definition raise {A} (e : exn E) : M A := fun h => (inl e, h).

Notation "'do' x <- c ; f" := (bind c (fun x => f))
  (at level 60, c at next level, right associativity).
Notation "'do' c ; f" := (bind c (fun _ => f))
  (at level 60, right associativity).

(** The object a reference is bound to. *)
Definition deref (self : loc) : M DTM :=
  fun h => match h !! self with
           | Some o => (inr o, h)
           | None => (inl ReferenceError, h)
           end.

(** In-place update of the object behind a reference. *)
Definition update (self : loc) (f : DTM -> DTM) : M unit :=
  fun h => match h !! self with
           | Some o => (inr tt, <[self := f o]> h)
           | None => (inl ReferenceError, h)
           end.

(** An exception of the provider propagates unchanged. *)
Definition provider {A} (r : E + A) : M A :=
  match r with
  | inl e => raise (ProviderError e)
  | inr a => ret a
  end.

(** [d[key]] *)
Definition getitem (d : gmap string pyval) (key : string) : M pyval :=
  match d !! key with
  | Some v => ret v
  | None => raise (KeyError key)
  end.

(** [self.params.setdefault(key, default)] *)
Definition params_setdefault (self : loc) (key : string) (default : pyval)
  : M pyval :=
  do o <- deref self;
  match o.(params) !! key with
  | Some v => ret v
  | None =>
      do update self (fun o => set_params o (<[key := default]> o.(params)));
      ret default
  end.

(** [self.knn] *)
Definition getattr_knn (self : loc) : M KNN :=
  do o <- deref self;
  match o.(knn) with
  | Some n => ret n
  | None => raise (AttributeError "knn")
  end.

(** *** Array operations *)

(** [X[:, :stop]] *)
Definition slice_cols (X : matrix) (stop : Z) : matrix :=
  map (slice_to stop) X.

(** [a ** e] on a 2-D array and on a 1-D array *)
Definition pow2d (a : matrix) (e : F) : matrix :=
  map (map (fun x => npow x e)) a.
Definition pow1d (a : vector) (e : F) : vector :=
  map (fun x => npow x e) a.

(** [a.sum(-1)] on a 2-D array *)
Definition sum_last (a : matrix) : vector := map nsum a.

(** [a / n] for an integer [n] *)
Definition div1d (a : vector) (n : Z) : vector :=
  map (fun x => ndiv x (of_int n)) a.

(** *** The class *)

(** [__init__]: the attributes the constructor assigns. *)
Definition __init__ (kv : Z) (qv : F) (kwargs : gmap string pyval) : DTM :=
  {| k := kv; q := qv; params := kwargs; knn := None |}.

(** [DTM(k, q, **kwargs)]: a new object, initialised by [__init__]. *)
Definition new_DTM (kv : Z) (qv : F) (kwargs : gmap string pyval) : M loc :=
  fun h => let self := fresh (dom h) in
           (inr self, <[self := __init__ kv qv kwargs]> h).

(** [self.knn.fit(X)]: the search object is updated in place. *)
Definition knn_fit (self : loc) (X : matrix) : M unit :=
  do n <- getattr_knn self;
  let '(r, n') := KNN_fit n X in
  do update self (fun o => set_knn o n');
  provider r.

(** [fit], lines 31-41.  The search object is bound to [self.knn] before
    it is fitted, so it stays bound when its [fit] raises. *)
Definition fit (self : loc) (X : matrix) : M loc :=
  do metric <- params_setdefault self "metric" (PStr "euclidean");
  do (if bool_decide (metric <> PStr "neighbors") then
        do o <- deref self;
        do n <- provider (KNN_init o.(k) false true o.(params));
        do update self (fun o => set_knn o n);
        knn_fit self X
      else ret tt);
  ret self.

(** Lines 48-51 of [transform]: the neighbor distances of the query. *)
Definition neighbor_distances (self : loc) (X : matrix) : M matrix :=
  do o <- deref self;
  do metric <- getitem o.(params) "metric";
  if bool_decide (metric = PStr "neighbors") then
    do o <- deref self;
    ret (slice_cols X o.(k))
  else
    do n <- getattr_knn self;
    provider (KNN_transform n X).

(** [x / y] on two numbers *)
Definition divide (x y : F) : M F :=
  match truediv x y with
  | Some z => ret z
  | None => raise ZeroDivisionError
  end.

(** Lines 52-55 of [transform]: the aggregation. *)
Definition aggregate (self : loc) (distances : matrix) : M vector :=
  do o <- deref self;
  let distances := pow2d distances o.(q) in
  let dtm := div1d (sum_last distances) o.(k) in
  do e <- divide one o.(q);
  let dtm := pow1d dtm e in
  ret dtm.

(** [transform], lines 43-55. *)
Definition transform (self : loc) (X : matrix) : M vector :=
  do distances <- neighbor_distances self X;
  aggregate self distances.

(** [fit_transform], lines 28-29: [self.fit(X).transform(X)], the second
    call being made on whatever the first returns. *)
Definition fit_transform (self : loc) (X : matrix) : M vector :=
  do r <- fit self X;
  transform r X.

(** *** The effect of [fit] in closed form *)

(** The option bag once [setdefault] has run. *)
Definition with_default_metric (p : gmap string pyval) : gmap string pyval :=
  match p !! "metric" with
  | Some _ => p
  | None => <["metric" := PStr "euclidean"]> p
  end.

(** The result of [fit] and the object it leaves behind the reference. *)
Definition fit_outcome (self : loc) (X : matrix) (o : DTM)
  : (exn E + loc) * DTM :=
  let o1 := set_params o (with_default_metric o.(params)) in
  if bool_decide (o1.(params) !! "metric" = Some (PStr "neighbors")) then
    (inr self, o1)
  else
    match KNN_init o1.(k) false true o1.(params) with
    | inl e => (inl (ProviderError e), o1)
    | inr n =>
        match KNN_fit n X with
        | (inl e, n') => (inl (ProviderError e), set_knn o1 n')
        | (inr _, n') => (inr self, set_knn o1 n')
        end
    end.

End Estimator.

Arguments DTM : clear implicits.
Arguments k {F KNN} _.
Arguments q {F KNN} _.
Arguments params {F KNN} _.
Arguments knn {F KNN} _.
Arguments __init__ {F} KNN kv qv kwargs.
Arguments new_DTM {F} KNN E kv qv kwargs _.
Arguments ret {F KNN E A} a _.
Arguments bind {F KNN E A B} c f _.
Arguments deref {F KNN E} self _.
Arguments getattr_knn {F KNN E} self _.
Arguments fit {F KNN E} KNN_init KNN_fit self X _.
Arguments neighbor_distances {F KNN E} KNN_transform self X _.
Arguments aggregate {F _ KNN E} self distances _.
Arguments transform {F _ KNN E} KNN_transform self X _.
Arguments fit_transform {F _ KNN E} KNN_init KNN_fit KNN_transform self X _.
Arguments fit_outcome {F KNN E} KNN_init KNN_fit self X o.

(** ** The documented formula *)


(** What lines 52-54 compute for one row of distances, [e] being the value
    of [1.0 / self.q]. *)
Definition dtm_row {F} `{Arith F} (kv : Z) (qv e : F) (d : list F) : F :=
  npow (ndiv (nsum (map (fun di => npow di qv) d)) (of_int kv)) e.

(** ** Exact arithmetic *)

(** [x ** y] on the real numbers: [0 ** 0] is [1] and [0 ** y] is [0] for
    a positive [y]; a positive base is raised by [exp (y * ln x)]; a negative
    base raised to an integer takes the sign of the parity.  Where the
    machine operation has no real value (a negative base with an exponent
    that is not an integer, [0] to a negative power) the definition gives
    [0]; the results on real numbers assume nonnegative bases and positive
    orders, where this does not occur. *)
Definition rpow (x y : R) : R :=
  if Req_dec_T x 0 then (if Req_dec_T y 0 then 1%R else 0%R)
  else if Rlt_dec 0 x then Rpower x y
  else if Req_dec_T (IZR (Int_part y)) y then
    (if Z.even (Int_part y) then Rpower (- x) y else (- Rpower (- x) y)%R)
  else 0%R.

Definition rsum (l : list R) : R := fold_right Rplus 0%R l.

(** Division of two built-in numbers ([q] is documented as a [float]):
    raises on a zero divisor. *)
Definition rtruediv (x y : R) : option R :=
  if Req_dec_T y 0 then None else Some (x / y)%R.

(** Exact arithmetic.  An array element divided by zero has no real value
    either ([Rdiv] gives [0]); the results on real numbers assume
    [k >= 1]. *)
#[global] Instance Arith_R : Arith R := {|
  npow := rpow;
  nsum := rsum;
  ndiv := Rdiv;
  truediv := rtruediv;
  nmul := Rmult;
  of_int := IZR;
  one := 1%R
|}.

(** ** A provider for examples *)

(** A search provider over already sorted distance rows: the search object
    remembers [k], and a query row answers with its first [k] entries.  It
    is used to run the estimator on concrete inputs. *)
Module RowProvider.
Definition KNN : Type := Z.
Definition E : Type := string.
Definition init (kv : Z) (return_index return_distance : bool)
           (kwargs : gmap string pyval) : E + KNN :=
  if return_distance then inr kv else inl "no distances requested".
Definition fit {F} (n : KNN) (X : list (list F)) : (E + unit) * KNN :=
  (inr tt, n).
Definition transform {F} (n : KNN) (X : list (list F)) : E + list (list F) :=
  inr (map (take (Z.to_nat n)) X).
End RowProvider.

(** The keyword bag of [DTM(k, q, metric="neighbors")]. *)
Definition neighbors_opts : gmap string pyval :=
  {["metric" := PStr "neighbors"]}.

(** The keyword bag of [DTM(k, q, metric="euclidean")]. *)
Definition euclidean_opts : gmap string pyval :=
  {["metric" := PStr "euclidean"]}.

(** A store with one estimator over the real numbers, at reference 1. *)
Definition store_of (o : DTM R RowProvider.KNN)
  : gmap positive (DTM R RowProvider.KNN) :=
  {[1%positive := o]}.

(** A search provider that raises: its constructor refuses [k <= 0], its
    [fit] refuses an empty reference set, and its [transform] refuses a
    query row with fewer than [k] entries.  It is used to run the failure
    paths of the estimator on concrete inputs. *)
Module CheckedProvider.
Definition KNN : Type := Z.
Definition E : Type := string.
Definition init (kv : Z) (return_index return_distance : bool)
           (kwargs : gmap string pyval) : E + KNN :=
  if 0 <? kv then inr kv else inl "k must be positive".
Definition fit {F} (n : KNN) (X : list (list F)) : (E + unit) * KNN :=
  match X with
  | [] => (inl "no reference points", n)
  | _ => (inr tt, n)
  end.
Definition transform {F} (n : KNN) (X : list (list F)) : E + list (list F) :=
  if forallb (fun row => Z.to_nat n <=? length row)%nat X
  then inr (map (take (Z.to_nat n)) X)
  else inl "not enough neighbors".
End CheckedProvider.

(** The value of [1.0 / 3] in Python: the quotient of two built-in floats is
    the binary64 number nearest to the exact quotient, here
    [6004799503160661 * 2^-54], a little less than one third. *)
Definition binary64_third : R := (6004799503160661 / 18014398509481984)%R.

(** ** The estimator over any arithmetic *)

Section Properties.
Context {F : Type} `{Arith F}.
Variable KNN : Type.
Variable E : Type.
Variable KNN_init : Z -> bool -> bool -> gmap string pyval -> E + KNN.
Variable KNN_fit : KNN -> list (list F) -> (E + unit) * KNN.
Variable KNN_transform : KNN -> list (list F) -> E + list (list F).

Implicit Types (self : positive) (X D : list (list F))
         (h : gmap positive (DTM F KNN)) (o : DTM F KNN).

(** *** Running the store monad *)

Lemma deref_bound self h o :
  h !! self = Some o -> deref (E:=E) self h = (inr o, h).
Proof. intros Hs. unfold deref. now rewrite Hs. Qed.

Lemma deref_unbound self h :
  h !! self = None -> deref (E:=E) self h = (inl ReferenceError, h).
Proof. intros Hs. unfold deref. now rewrite Hs. Qed.

Lemma aggregate_bound self D h o :
  h !! self = Some o ->
  aggregate (E:=E) self D h
  = (match truediv one o.(q) with
     | Some e => inr (map (dtm_row o.(k) o.(q) e) D)
     | None => inl ZeroDivisionError
     end, h).
Proof.
  intros Hs. unfold aggregate, bind. rewrite (deref_bound _ _ _ Hs).
  unfold divide. destruct (truediv one (q o)) as [e|]; [|reflexivity].
  unfold ret, pow1d, div1d, sum_last, pow2d.
  now rewrite !map_map.
Qed.

Lemma neighbor_distances_store self X h :
  snd (neighbor_distances KNN_transform self X h) = h.
Proof.
  unfold neighbor_distances, bind, getattr_knn, bind, deref, getitem.
  destruct (h !! self) as [o|] eqn:Hs; [|reflexivity].
  destruct (params o !! "metric") as [v|]; [|reflexivity].
  unfold ret at 1. case_bool_decide.
  - rewrite Hs. reflexivity.
  - rewrite Hs. destruct (knn o); [|reflexivity].
    unfold ret at 1. now destruct (KNN_transform _ _).
Qed.

Lemma aggregate_store self D h : snd (aggregate (E:=E) self D h) = h.
Proof.
  unfold aggregate, bind, deref. destruct (h !! self) as [o|]; [|reflexivity].
  unfold divide. now destruct (truediv one (q o)).
Qed.

Lemma transform_store self X h : snd (transform KNN_transform self X h) = h.
Proof.
  unfold transform, bind.
  pose proof (neighbor_distances_store self X h) as Hn.
  destruct (neighbor_distances KNN_transform self X h) as [[e|D] h1]; simpl in Hn; subst h1.
  - reflexivity.
  - apply aggregate_store.
Qed.

(** In "neighbors" mode the distances are the sliced rows. *)
Lemma neighbor_distances_neighbors self X h o :
  h !! self = Some o ->
  o.(params) !! "metric" = Some (PStr "neighbors") ->
  neighbor_distances KNN_transform self X h = (inr (map (slice_to o.(k)) X), h).
Proof.
  intros Hs Hm. unfold neighbor_distances, bind.
  rewrite (deref_bound _ _ _ Hs). unfold getitem. rewrite Hm.
  unfold ret at 1. rewrite bool_decide_eq_true_2 by reflexivity.
  now rewrite (deref_bound _ _ _ Hs).
Qed.

(** With another metric they are what the bound search object answers. *)
Lemma neighbor_distances_search self X h o v n :
  h !! self = Some o ->
  o.(params) !! "metric" = Some v -> v <> PStr "neighbors" ->
  o.(knn) = Some n ->
  neighbor_distances KNN_transform self X h = (provider KNN E (KNN_transform n X) h).
Proof.
  intros Hs Hm Hv Hn. unfold neighbor_distances, bind.
  rewrite (deref_bound _ _ _ Hs). unfold getitem. rewrite Hm.
  unfold ret at 1. rewrite bool_decide_eq_false_2 by assumption.
  unfold getattr_knn, bind. rewrite (deref_bound _ _ _ Hs), Hn.
  reflexivity.
Qed.

(** The two ways the distances of a query are obtained. *)
Lemma neighbor_distances_inv self X h o D h' :
  h !! self = Some o ->
  neighbor_distances KNN_transform self X h = (inr D, h') ->
  (o.(params) !! "metric" = Some (PStr "neighbors")
   /\ D = map (slice_to o.(k)) X)
  \/ (exists v n, o.(params) !! "metric" = Some v /\ v <> PStr "neighbors"
                  /\ o.(knn) = Some n /\ KNN_transform n X = inr D).
Proof.
  intros Hs. unfold neighbor_distances, bind at 1.
  rewrite (deref_bound _ _ _ Hs). unfold getitem.
  destruct (params o !! "metric") as [v|]; [|discriminate].
  unfold bind at 1, ret at 1. case_bool_decide as Hv.
  - subst v. unfold bind. rewrite (deref_bound _ _ _ Hs).
    intros [= <- _]. now left.
  - unfold bind at 1, getattr_knn, bind at 1.
    rewrite (deref_bound _ _ _ Hs).
    destruct (knn o) as [n|]; [|discriminate].
    unfold ret at 1. destruct (KNN_transform n X) as [e|D'] eqn:Ht;
      simpl; [discriminate|].
    intros [= <- _]. right. now exists v, n.
Qed.

Lemma transform_run self X h o D :
  h !! self = Some o ->
  neighbor_distances KNN_transform self X h = (inr D, h) ->
  transform KNN_transform self X h
  = (match truediv one o.(q) with
     | Some e => inr (map (dtm_row o.(k) o.(q) e) D)
     | None => inl ZeroDivisionError
     end, h).
Proof.
  intros Hs Hd. unfold transform, bind. rewrite Hd.
  now apply aggregate_bound.
Qed.

(** *** What [fit] does *)

Lemma with_default_metric_lookup p :
  with_default_metric p !! "metric"
  = Some (default (PStr "euclidean") (p !! "metric")).
Proof.
  unfold with_default_metric.
  destruct (p !! "metric") as [v|] eqn:Hp; simpl.
  - exact Hp.
  - apply lookup_insert_eq.
Qed.

Lemma fit_run self X h o :
  h !! self = Some o ->
  fit KNN_init KNN_fit self X h
  = (fst (fit_outcome KNN_init KNN_fit self X o), <[self := snd (fit_outcome KNN_init KNN_fit self X o)]> h).
Proof.
  intros Hs. unfold fit_outcome, fit, bind at 1, params_setdefault, bind at 1.
  rewrite (deref_bound _ _ _ Hs). unfold with_default_metric.
  destruct (params o !! "metric") as [v|] eqn:Hm.
  - unfold ret at 1. cbn [params set_params]. rewrite Hm.
    replace (set_params KNN o (params o)) with o by (now destruct o).
    destruct (decide (v = PStr "neighbors")) as [->|Hv].
    + rewrite bool_decide_eq_false_2 by (intros Hc; now apply Hc).
      rewrite bool_decide_eq_true_2 by reflexivity.
      unfold bind, ret. simpl. now rewrite insert_id.
    + rewrite bool_decide_eq_true_2 by assumption.
      rewrite bool_decide_eq_false_2 by congruence.
      unfold bind at 1. unfold bind at 1. rewrite (deref_bound _ _ _ Hs).
      destruct (KNN_init (k o) false true (params o)) as [e|n]; simpl.
      { unfold bind, raise. simpl. now rewrite insert_id. }
      unfold bind at 1, ret at 1, bind at 1, update. rewrite Hs.
      unfold knn_fit, bind at 1, getattr_knn, bind at 1, deref.
      rewrite lookup_insert_eq. cbn [knn set_knn]. unfold ret at 1.
      destruct (KNN_fit n X) as [[e|[]] n']; unfold bind, update;
        rewrite lookup_insert_eq; simpl; unfold raise, ret;
        now rewrite insert_insert_eq.
  - unfold bind at 1, update. rewrite Hs. unfold ret at 1.
    cbn [k params set_params]. rewrite lookup_insert_eq.
    rewrite bool_decide_eq_true_2 by discriminate.
    rewrite bool_decide_eq_false_2 by discriminate.
    unfold bind at 1. unfold bind at 1, deref. rewrite lookup_insert_eq.
    cbn [k params set_params].
    destruct (KNN_init _ _ _ _) as [e|n]; simpl.
    { reflexivity. }
    unfold bind at 1, ret at 1, bind at 1, update. rewrite lookup_insert_eq.
    unfold knn_fit, bind at 1, getattr_knn, bind at 1, deref.
    rewrite lookup_insert_eq. cbn [knn set_knn]. unfold ret at 1.
    destruct (KNN_fit n X) as [[e|[]] n']; unfold bind, update;
      rewrite lookup_insert_eq; simpl; unfold raise, ret;
      now rewrite !insert_insert_eq.
Qed.

Lemma fit_unbound self X h :
  h !! self = None ->
  fit KNN_init KNN_fit self X h = (inl ReferenceError, h).
Proof.
  intros Hs. unfold fit, bind at 1, params_setdefault, bind at 1.
  now rewrite (deref_unbound _ _ Hs).
Qed.

(** Whenever [fit] returns, it returns the reference it was called on. *)
Lemma fit_returns_self self X h r h' :
  fit KNN_init KNN_fit self X h = (inr r, h') -> r = self.
Proof.
  destruct (h !! self) as [o|] eqn:Hs.
  - rewrite (fit_run _ X _ _ Hs). unfold fit_outcome.
    case_bool_decide; simpl; [congruence|].
    destruct (KNN_init _ _ _ _); simpl; [discriminate|].
    destruct (KNN_fit _ _) as [[e|u] n']; simpl; congruence.
  - rewrite (fit_unbound _ X _ Hs). discriminate.
Qed.

(** [transform] in "neighbors" mode, in closed form. *)
Lemma transform_neighbors_run self X h o :
  h !! self = Some o ->
  o.(params) !! "metric" = Some (PStr "neighbors") ->
  transform KNN_transform self X h
  = (match truediv one o.(q) with
     | Some e =>
         inr (map (fun row => dtm_row o.(k) o.(q) e (slice_to o.(k) row)) X)
     | None => inl ZeroDivisionError
     end, h).
Proof.
  intros Hs Hm.
  pose proof (neighbor_distances_neighbors _ X _ _ Hs Hm) as Hd.
  rewrite (transform_run _ _ _ _ _ Hs Hd).
  destruct (truediv one (q o)); [|reflexivity]. now rewrite map_map.
Qed.

(** A new estimator is bound to a reference the store did not use. *)
Lemma new_DTM_run kv qv kwargs h :
  new_DTM KNN E kv qv kwargs h
  = (inr (fresh (dom h)), <[fresh (dom h) := __init__ KNN kv qv kwargs]> h).
Proof. reflexivity. Qed.

(** *** Slices *)

Lemma slice_to_short {A} (stop : Z) (row : list A) :
  0 <= stop -> (length row <= Z.to_nat stop)%nat -> slice_to stop row = row.
Proof.
  intros Hk Hl. unfold slice_to.
  destruct (0 <=? stop) eqn:Hc; [|apply Z.leb_gt in Hc; lia].
  now apply take_ge.
Qed.

Lemma slice_to_first {A} (stop : Z) (row : list A) :
  0 <= stop -> slice_to stop row = take (Z.to_nat stop) row.
Proof.
  intros Hk. unfold slice_to.
  destruct (0 <=? stop) eqn:Hc; [reflexivity|apply Z.leb_gt in Hc; lia].
Qed.

(** *** The claims that hold for every arithmetic *)


(** C2. [fit_transform(X)] is [fit(X)] followed by [transform(X)] on the
    same estimator, on every input and every store (results, exceptions
    and final stores agree); and whenever [fit] returns, in any metric
    mode, it returns the reference it was called on. *)
Theorem fit_transform_sequential self X h :
  fit_transform KNN_init KNN_fit KNN_transform self X h
  = bind (fit KNN_init KNN_fit self X)
         (fun _ => transform KNN_transform self X) h
  /\ (forall r h', fit KNN_init KNN_fit self X h = (inr r, h') -> r = self).
Proof.
  split.
  - unfold fit_transform, bind.
    destruct (fit KNN_init KNN_fit self X h) as [[e|r] h'] eqn:Hf.
    + reflexivity.
    + now rewrite (fit_returns_self _ _ _ _ _ Hf).
  - apply fit_returns_self.
Qed.

(** C4, as the code has it.  In "neighbors" mode [transform] raises no
    error about the number of columns: each row is cut at [k] columns by
    the slice, which keeps a shorter row whole, and the row is aggregated
    with the division by [k] unchanged.  The only failure in this mode is
    the division [1.0 / q] by an order [q] that is zero. *)
Theorem transform_neighbors_short_rows self X h o :
  h !! self = Some o ->
  o.(params) !! "metric" = Some (PStr "neighbors") ->
  transform KNN_transform self X h
  = (match truediv one o.(q) with
     | Some e =>
         inr (map (fun row => dtm_row o.(k) o.(q) e (slice_to o.(k) row)) X)
     | None => inl ZeroDivisionError
     end, h)
  /\ (0 <= o.(k) ->
      Forall (fun row => (length row < Z.to_nat o.(k))%nat) X ->
      forall e, truediv one o.(q) = Some e ->
      transform KNN_transform self X h
      = (inr (map (dtm_row o.(k) o.(q) e) X), h)).
Proof.
  intros Hs Hm. rewrite (transform_neighbors_run _ _ _ _ Hs Hm).
  split; [reflexivity|].
  intros Hk Hshort e ->. do 2 f_equal.
  induction Hshort as [|row X' Hrow _ IH]; [reflexivity|].
  simpl. rewrite IH. f_equal.
  rewrite slice_to_short; [reflexivity|assumption|lia].
Qed.

(** C5, as the code has it.  On an estimator whose search object has not
    been bound and whose metric is not "neighbors", [transform] fails for
    every input array and leaves the store as it was: with the missing
    attribute [knn] when a metric was given to the constructor, and with
    the missing key "metric" when none was given, since the default metric
    is only inserted by [fit]. *)
Theorem transform_unfitted self X h o :
  h !! self = Some o ->
  o.(knn) = None ->
  o.(params) !! "metric" <> Some (PStr "neighbors") ->
  transform KNN_transform self X h
  = (inl (match o.(params) !! "metric" with
          | Some _ => AttributeError "knn"
          | None => KeyError "metric"
          end), h).
Proof.
  intros Hs Hn Hm. unfold transform, bind at 1, neighbor_distances, bind at 1.
  rewrite (deref_bound _ _ _ Hs). unfold getitem.
  destruct (params o !! "metric") as [v|]; [|reflexivity].
  unfold bind at 1, ret at 1.
  rewrite bool_decide_eq_false_2 by congruence.
  unfold bind at 1, getattr_knn, bind at 1.
  now rewrite (deref_bound _ _ _ Hs), Hn.
Qed.

(** C8, as the code has it.  The constructor validates nothing and never
    fails: for every [k], [q] and options it yields a new estimator that
    stores them as given.  [fit] on it never fails in "neighbors" mode, and
    in any mode the only exceptions [fit] can raise are those of the
    search provider. *)
Theorem construction_validates_nothing kv qv kwargs X h :
  exists self h1,
    new_DTM KNN E kv qv kwargs h = (inr self, h1)
    /\ h !! self = None
    /\ h1 !! self = Some (__init__ KNN kv qv kwargs)
    /\ (kwargs !! "metric" = Some (PStr "neighbors") ->
        fit KNN_init KNN_fit self X h1 = (inr self, h1))
    /\ (forall e h2, fit KNN_init KNN_fit self X h1 = (inl e, h2) ->
        exists pe, e = ProviderError pe).
Proof.
  exists (fresh (dom h)), (<[fresh (dom h) := __init__ KNN kv qv kwargs]> h).
  assert (Hnew : (<[fresh (dom h) := __init__ KNN kv qv kwargs]> h)
                   !! fresh (dom h) = Some (__init__ KNN kv qv kwargs))
    by apply lookup_insert_eq.
  split; [reflexivity|]. split.
  { apply not_elem_of_dom. apply is_fresh. }
  split; [exact Hnew|]. split.
  - intros Hm. rewrite (fit_run _ X _ _ Hnew). unfold fit_outcome.
    cbn [params __init__ set_params]. unfold with_default_metric.
    rewrite Hm. rewrite bool_decide_eq_true_2 by assumption. simpl.
    f_equal. rewrite insert_insert_eq. reflexivity.
  - intros e h2. rewrite (fit_run _ X _ _ Hnew). unfold fit_outcome.
    case_bool_decide; simpl; [discriminate|].
    destruct (KNN_init _ _ _ _) as [pe|n]; simpl.
    + intros [= <- _]. now exists pe.
    + destruct (KNN_fit n X) as [[pe|u] n']; simpl; [|discriminate].
      intros [= <- _]. now exists pe.
Qed.

(** C9. [transform] has no side effects: on every input, whether it
    returns or raises, the store after the call is the store before it, so
    every attribute of the estimator ([k], [q], [params], [knn]) is
    unchanged; and calling it again on the same input gives the same
    result. *)
Theorem transform_no_side_effects self X h :
  snd (transform KNN_transform self X h) = h
  /\ transform KNN_transform self X (snd (transform KNN_transform self X h))
     = transform KNN_transform self X h.
Proof.
  split.
  - apply transform_store.
  - now rewrite transform_store.
Qed.

(** C10. After any call of [fit] that returns, the option bag of the
    estimator holds the key "metric": with the value given to the
    constructor when there was one, with "euclidean" otherwise, and no
    other option is touched.  [transform] depends on the insertion: before
    it, an estimator built without a metric fails on the lookup of
    "metric"; after it, [transform] cannot fail on that lookup. *)
Theorem fit_inserts_default_metric self X h o r h' :
  h !! self = Some o ->
  fit KNN_init KNN_fit self X h = (inr r, h') ->
  exists o',
    h' !! self = Some o'
    /\ o'.(params)
       = match o.(params) !! "metric" with
         | Some _ => o.(params)
         | None => <["metric" := PStr "euclidean"]> o.(params)
         end
    /\ o'.(params) !! "metric"
       = Some (default (PStr "euclidean") (o.(params) !! "metric"))
    /\ (o.(params) !! "metric" = None ->
        forall X', transform KNN_transform self X' h
                   = (inl (KeyError "metric"), h))
    /\ (forall X', fst (transform KNN_transform self X' h')
                   <> inl (KeyError "metric")).
Proof.
  intros Hs. rewrite (fit_run _ X _ _ Hs).
  set (oc := fit_outcome KNN_init KNN_fit self X o).
  intros [= Hr <-]. exists (snd oc).
  assert (Hp : params (snd oc) = with_default_metric (params o)).
  { subst oc. unfold fit_outcome. case_bool_decide; [reflexivity|].
    destruct (KNN_init _ _ _ _); [reflexivity|].
    now destruct (KNN_fit _ _) as [[e|u] n']. }
  assert (Hl : params (snd oc) !! "metric"
               = Some (default (PStr "euclidean") (params o !! "metric")))
    by (rewrite Hp; apply with_default_metric_lookup).
  split; [apply lookup_insert_eq|]. split; [exact Hp|].
  split; [exact Hl|]. split.
  - intros Hm X'. unfold transform, bind at 1, neighbor_distances, bind at 1.
    rewrite (deref_bound _ _ _ Hs). unfold getitem. now rewrite Hm.
  - intros X'. unfold transform, bind at 1, neighbor_distances, bind at 1.
    erewrite deref_bound by apply lookup_insert_eq.
    unfold getitem. rewrite Hl. unfold bind at 1, ret at 1.
    case_bool_decide.
    + unfold bind at 1. erewrite deref_bound by apply lookup_insert_eq.
      unfold ret at 1.
      erewrite aggregate_bound by apply lookup_insert_eq.
      destruct (truediv _ _); discriminate.
    + unfold bind at 1, getattr_knn, bind at 1.
      erewrite deref_bound by apply lookup_insert_eq.
      destruct (knn (snd oc)) as [n|]; [|discriminate].
      unfold ret at 1. destruct (KNN_transform n X') as [e|D]; simpl.
      * discriminate.
      * erewrite aggregate_bound by apply lookup_insert_eq.
        destruct (truediv _ _); discriminate.
Qed.

(** In "neighbors" mode only the first [k] columns of the input matter. *)
Lemma transform_neighbors_take self X h o :
  h !! self = Some o ->
  o.(params) !! "metric" = Some (PStr "neighbors") ->
  0 <= o.(k) ->
  neighbor_distances KNN_transform self X h
  = (inr (map (take (Z.to_nat o.(k))) X), h)
  /\ transform KNN_transform self X h
     = transform KNN_transform self (map (take (Z.to_nat o.(k))) X) h.
Proof.
  intros Hs Hm Hk. split.
  - rewrite (neighbor_distances_neighbors _ _ _ _ Hs Hm). do 2 f_equal.
    apply map_ext. intros row. now apply slice_to_first.
  - rewrite !(transform_neighbors_run _ _ _ _ Hs Hm).
    destruct (truediv one (q o)); [|reflexivity]. do 2 f_equal.
    rewrite map_map. apply map_ext. intros row. f_equal.
    rewrite !slice_to_first by assumption. now rewrite take_take, Nat.min_id.
Qed.

End Properties.

(** ** The estimator over the real numbers *)

Section RealPowers.
Local Open Scope R_scope.

Lemma rpow_pos_base x y : 0 < x -> rpow x y = Rpower x y.
Proof.
  intros Hx. unfold rpow. destruct (Req_dec_T x 0); [lra|].
  destruct (Rlt_dec 0 x); [reflexivity|contradiction].
Qed.

Lemma rpow_nonneg x y : 0 <= x -> 0 <= rpow x y.
Proof.
  intros [Hx | <-].
  - rewrite rpow_pos_base by assumption. left. apply exp_pos.
  - unfold rpow. destruct (Req_dec_T 0 0); [|lra].
    destruct (Req_dec_T y 0); lra.
Qed.

(** A negative base raised to the power one keeps its sign. *)
Lemma rpow_neg_one x : x < 0 -> rpow x 1 = x.
Proof.
  intros Hx. unfold rpow. destruct (Req_dec_T x 0); [lra|].
  destruct (Rlt_dec 0 x); [lra|].
  assert (Hi : Int_part 1 = 1%Z).
  { symmetry. apply Int_part_spec. simpl. lra. }
  rewrite Hi. destruct (Req_dec_T 1 1); [|lra]. simpl.
  rewrite Rpower_1 by lra. ring.
Qed.

Lemma rpow_zero_base y : y <> 0 -> rpow 0 y = 0.
Proof.
  intros Hy. unfold rpow. destruct (Req_dec_T 0 0); [|lra].
  destruct (Req_dec_T y 0); [contradiction|reflexivity].
Qed.

Lemma rpow_pos x y : 0 < x -> 0 < rpow x y.
Proof. intros Hx. rewrite rpow_pos_base by assumption. apply exp_pos. Qed.

Lemma rpow_one_r x : 0 <= x -> rpow x 1 = x.
Proof.
  intros [Hx | <-].
  - rewrite rpow_pos_base by assumption. now apply Rpower_1.
  - apply rpow_zero_base. lra.
Qed.

Lemma rpow_rpow x a b :
  0 <= x -> a <> 0 -> b <> 0 -> rpow (rpow x a) b = rpow x (a * b).
Proof.
  intros [Hx | <-] Ha Hb.
  - rewrite (rpow_pos_base x a), (rpow_pos_base x (a * b)) by assumption.
    rewrite rpow_pos_base by apply exp_pos. apply Rpower_mult.
  - rewrite (rpow_zero_base a) by assumption.
    rewrite !rpow_zero_base; [reflexivity| |assumption].
    now apply Rmult_integral_contrapositive_currified.
Qed.

Lemma rpow_le_base x y c : 0 <= x <= y -> 0 < c -> rpow x c <= rpow y c.
Proof.
  intros [[Hx | <-] Hxy] Hc.
  - rewrite !rpow_pos_base by lra. apply Rle_Rpower_l; lra.
  - rewrite rpow_zero_base by lra. now apply rpow_nonneg.
Qed.

Lemma rpow_scale m u p :
  0 < m -> 0 <= u -> p <> 0 -> rpow (m * u) p = rpow m p * rpow u p.
Proof.
  intros Hm [Hu | <-] Hp.
  - rewrite !rpow_pos_base; try assumption.
    + symmetry. now apply Rpower_mult_distr.
    + now apply Rmult_lt_0_compat.
  - rewrite Rmult_0_r, rpow_zero_base by assumption. ring.
Qed.

(** The logarithm lies below its tangents. *)
Lemma ln_le_pred x : 0 < x -> ln x <= x - 1.
Proof.
  intros Hx. pose proof (exp_ineq1_le (ln x)) as He.
  rewrite exp_ln in He by assumption. lra.
Qed.

Lemma ln_tangent x z : 0 < x -> 0 < z -> ln x <= ln z + (x - z) / z.
Proof.
  intros Hx Hz.
  assert (Hq : 0 < x / z) by now apply Rdiv_lt_0_compat.
  pose proof (ln_le_pred _ Hq) as Hl.
  unfold Rdiv in Hl. rewrite ln_mult in Hl; [|assumption|now apply Rinv_0_lt_compat].
  rewrite ln_Rinv in Hl by assumption.
  replace ((x - z) / z) with (x * / z - 1) by (field; lra). lra.
Qed.

(** Bernoulli's inequality for a real exponent. *)
Lemma rpow_bernoulli u p : 0 <= u -> 1 <= p -> 1 + p * (u - 1) <= rpow u p.
Proof.
  intros [Hu | <-] Hp.
  2:{ rewrite rpow_zero_base by lra. lra. }
  rewrite rpow_pos_base by assumption.
  destruct (Rle_lt_dec (1 + p * (u - 1)) 0) as [Hneg | Hw].
  { pose proof (exp_pos (p * ln u)). unfold Rpower. lra. }
  set (w := 1 + p * (u - 1)) in *.
  assert (Hwu : w - u = (p - 1) * (u - 1)) by (unfold w; ring).
  assert (Hlw : ln w <= p * ln u).
  { pose proof (ln_tangent w u Hw Hu) as Hwt.
    pose proof (ln_tangent 1 u Rlt_0_1 Hu) as H1t. rewrite ln_1 in H1t.
    assert (Hdiv : (w - u) / u = (p - 1) * ((u - 1) / u))
      by (rewrite Hwu; field; lra).
    assert (Hone : (1 - u) / u = - ((u - 1) / u)) by (field; lra).
    rewrite Hdiv in Hwt. rewrite Hone in H1t.
    assert (Hmul : (p - 1) * ((u - 1) / u) <= (p - 1) * ln u)
      by (apply Rmult_le_compat_l; lra).
    lra. }
  unfold Rpower. rewrite <- (exp_ln w) by assumption.
  destruct Hlw as [Hlt | Heq].
  - left. now apply exp_increasing.
  - rewrite Heq. apply Rle_refl.
Qed.

(** *** Sums of powers *)

Lemma rsum_nonneg l : Forall (fun x => 0 <= x) l -> 0 <= rsum l.
Proof.
  induction 1 as [|x l Hx _ IH]; simpl; lra.
Qed.

Lemma rsum_pow_nonneg l e :
  Forall (fun x => 0 <= x) l -> 0 <= rsum (map (fun x => rpow x e) l).
Proof.
  induction 1 as [|x l Hx _ IH]; simpl; [lra|].
  pose proof (rpow_nonneg x e Hx). lra.
Qed.

(** Each power lies above the tangent of [t ^ p] at [m]; summed over the
    list. *)
Lemma rsum_pow_tangent l m p :
  0 < m -> 1 <= p -> Forall (fun x => 0 <= x) l ->
  rpow m p * (INR (length l) * (1 - p) + p * (rsum l / m))
  <= rsum (map (fun x => rpow x p) l).
Proof.
  intros Hm Hp. induction 1 as [|x l Hx _ IH].
  - simpl. unfold Rdiv. lra.
  - cbn [length map rsum fold_right]. rewrite S_INR.
    fold (rsum l). fold (rsum (map (fun x => rpow x p) l)).
    assert (Hu : 0 <= x / m) 
      by (apply Rmult_le_pos; [lra|left; apply Rinv_0_lt_compat; lra]).
    pose proof (rpow_bernoulli (x / m) p Hu Hp) as Hb.
    assert (Hx' : rpow x p = rpow m p * rpow (x / m) p).
    { rewrite <- rpow_scale by lra. f_equal. field. lra. }
    pose proof (rpow_nonneg m p (Rlt_le _ _ Hm)) as Hmp.
    assert (Hxb : rpow m p * (1 + p * (x / m - 1)) <= rpow x p)
      by (rewrite Hx'; apply Rmult_le_compat_l; lra).
    replace ((x + rsum l) / m) with (x / m + rsum l / m) by (field; lra).
    lra.
Qed.

(** Jensen's inequality for [t ^ p], [p >= 1], on at most [K] nonnegative
    numbers averaged over [K]. *)
Lemma rsum_pow_jensen l K p :
  1 <= K -> INR (length l) <= K -> 1 <= p ->
  Forall (fun x => 0 <= x) l ->
  rpow (rsum l / K) p <= rsum (map (fun x => rpow x p) l) / K.
Proof.
  intros HK Hlen Hp Hl.
  pose proof (rsum_nonneg l Hl) as HS.
  pose proof (rsum_pow_nonneg l p Hl) as HP.
  assert (HKi : 0 < / K) by (apply Rinv_0_lt_compat; lra).
  destruct HS as [HS | HS].
  - assert (Hm : 0 < rsum l / K) by (apply Rmult_lt_0_compat; assumption).
    pose proof (rsum_pow_tangent l _ p Hm Hp Hl) as Ht.
    replace (rsum l / (rsum l / K)) with K in Ht by (field; lra).
    pose proof (rpow_nonneg (rsum l / K) p (Rlt_le _ _ Hm)) as Hc.
    assert (Hlow : rpow (rsum l / K) p * K
                   <= rpow (rsum l / K) p
                      * (INR (length l) * (1 - p) + p * K)).
    { apply Rmult_le_compat_l; [assumption|].
      assert (INR (length l) * (1 - p) >= K * (1 - p)); [|lra].
      apply Rle_ge. rewrite !(Rmult_comm _ (1 - p)).
      apply Rmult_le_compat_neg_l; lra. }
    apply (Rmult_le_reg_r K); [lra|].
    unfold Rdiv at 2. rewrite Rmult_assoc, Rinv_l by lra. lra.
  - rewrite <- HS. unfold Rdiv at 1. rewrite Rmult_0_l.
    rewrite rpow_zero_base by lra.
    apply Rmult_le_pos; lra.
Qed.

(** The power mean of order [q] that [dtm_row] computes does not decrease
    with [q]. *)
Lemma dtm_row_monotone (kv : Z) (d : list R) (q1 q2 : R) :
  (1 <= kv)%Z -> (length d <= Z.to_nat kv)%nat ->
  Forall (fun x => 0 <= x) d ->
  0 < q1 <= q2 ->
  dtm_row kv q1 (1 / q1) d <= dtm_row kv q2 (1 / q2) d.
Proof.
  intros Hk Hlen Hd [Hq1 Hq12]. unfold dtm_row.
  cbn [npow nsum ndiv of_int one Arith_R].
  set (a := map (fun di => rpow di q1) d).
  set (p := q2 / q1).
  assert (Hp : 1 <= p).
  { unfold p. apply (Rmult_le_reg_r q1); [assumption|].
    unfold Rdiv. rewrite Rmult_assoc, Rinv_l by lra. lra. }
  assert (Ha : Forall (fun x => 0 <= x) a).
  { unfold a. clear Hlen.
    induction Hd as [|x d Hx _ IH]; constructor; [|exact IH].
    now apply rpow_nonneg. }
  assert (Hq2 : map (fun di => rpow di q2) d = map (fun x => rpow x p) a).
  { unfold a. rewrite map_map. clear Hlen Ha. clear a.
    induction Hd as [|x d Hx _ IH]; [reflexivity|]. simpl. f_equal; [|exact IH].
    rewrite rpow_rpow; [|assumption|lra|lra].
    f_equal. unfold p. field. lra. }
  rewrite Hq2.
  assert (HK : 1 <= IZR kv) by now apply IZR_le.
  assert (HlenR : INR (length a) <= IZR kv).
  { unfold a. rewrite length_map. rewrite <- (Z2Nat.id kv) at 1 by lia.
    rewrite <- INR_IZR_INZ. now apply le_INR. }
  pose proof (rsum_pow_jensen a (IZR kv) p HK HlenR Hp Ha) as HJ.
  assert (Hm : 0 <= rsum a / IZR kv).
  { apply Rmult_le_pos; [now apply rsum_nonneg|].
    left. apply Rinv_0_lt_compat. lra. }
  assert (Hexp : rpow (rsum a / IZR kv) (1 / q1)
                 = rpow (rpow (rsum a / IZR kv) p) (1 / q2)).
  { rewrite rpow_rpow; [|assumption|lra|].
    - f_equal. unfold p. field. lra.
    - unfold Rdiv. rewrite Rmult_1_l. apply Rinv_neq_0_compat. lra. }
  rewrite Hexp. apply rpow_le_base.
  - split; [now apply rpow_nonneg|exact HJ].
  - unfold Rdiv. rewrite Rmult_1_l. apply Rinv_0_lt_compat. lra.
Qed.

End RealPowers.

(** ** The claims on real numbers *)

Section RealClaims.
Local Open Scope R_scope.

Variable KNN : Type.
Variable E : Type.
Variable KNN_transform : KNN -> list (list R) -> E + list (list R).

Lemma rtruediv_one q0 : q0 <> 0 -> truediv one q0 = Some (1 / q0).
Proof.
  intros Hq. cbn [truediv one Arith_R]. unfold rtruediv.
  destruct (Req_dec_T q0 0); [contradiction|reflexivity].
Qed.

Lemma dtm_row_nonneg (kv : Z) (qv e : R) (d : list R) :
  (1 <= kv)%Z -> Forall (fun x => 0 <= x) d -> 0 <= dtm_row kv qv e d.
Proof.
  intros Hk Hd. unfold dtm_row. cbn [npow nsum ndiv of_int Arith_R].
  apply rpow_nonneg. apply Rmult_le_pos.
  - now apply rsum_pow_nonneg.
  - left. apply Rinv_0_lt_compat. apply IZR_lt. lia.
Qed.

(** C6, as the code has it.  When [transform] succeeds on distances that
    are all nonnegative, with an order [q > 0], the output is a 1-D sequence
    with one value per query row, the value at position [i] being the
    aggregate of the distances of row [i]; and when [k >= 1] every value is
    [>= 0].  The code accepts any [k]: with [k <= 0] a value can be negative.
    The search provider answers a query of [n] rows with [n] rows of
    distances, as its interface says. *)
Theorem transform_length_nonneg self X h (o : DTM R KNN) D :
  (forall n X' D', KNN_transform n X' = inr D' -> length D' = length X') ->
  h !! self = Some o ->
  neighbor_distances KNN_transform self X h = (inr D, h) ->
  Forall (Forall (fun d => 0 <= d)) D ->
  0 < o.(q) ->
  exists out,
    transform KNN_transform self X h = (inr out, h)
    /\ length out = length X
    /\ (forall i : nat,
           out !! i = dtm_row o.(k) o.(q) (1 / o.(q)) <$> D !! i)
    /\ ((1 <= o.(k))%Z -> Forall (fun v => 0 <= v) out).
Proof.
  intros Hshape Hs Hd Hpos Hq.
  exists (map (dtm_row o.(k) o.(q) (1 / o.(q))) D).
  split; [|split; [|split]].
  - rewrite (transform_run _ _ _ _ _ _ _ _ Hs Hd).
    rewrite rtruediv_one; [reflexivity|lra].
  - rewrite length_map.
    destruct (neighbor_distances_inv _ _ _ _ _ _ _ _ _ Hs Hd)
      as [[_ ->] | (v & n & _ & _ & _ & Ht)].
    + apply length_map.
    + now apply (Hshape n).
  - intros i. apply list_lookup_fmap.
  - intros Hk. clear Hd.
    induction Hpos as [|d D' Hd' _ IH]; simpl; constructor.
    + now apply dtm_row_nonneg.
    + exact IH.
Qed.

(** C7, as the code has it.  In exact arithmetic, for vectors of at most
    [k] nonnegative distances, [k >= 1], the value the aggregation of
    [transform] computes does not decrease when the order grows: if
    [0 < q <= q'], an estimator of order [q'] gives, row by row, at least
    what the estimator of order [q] with the same [k] gives.  On machine
    floats the order can fail by rounding. *)
Theorem dtm_monotone_in_order self D h1 h2 (o1 o2 : DTM R KNN) :
  h1 !! self = Some o1 -> h2 !! self = Some o2 ->
  o1.(k) = o2.(k) -> (1 <= o1.(k))%Z ->
  Forall (fun d => (length d <= Z.to_nat o1.(k))%nat
                   /\ Forall (fun x => 0 <= x) d) D ->
  0 < o1.(q) <= o2.(q) ->
  exists out1 out2,
    aggregate (E:=E) self D h1 = (inr out1, h1)
    /\ aggregate (E:=E) self D h2 = (inr out2, h2)
    /\ Forall2 Rle out1 out2.
Proof.
  intros Hs1 Hs2 Hkk Hk HD Hq.
  exists (map (dtm_row o1.(k) o1.(q) (1 / o1.(q))) D),
         (map (dtm_row o2.(k) o2.(q) (1 / o2.(q))) D).
  split; [|split].
  - rewrite (aggregate_bound _ _ _ _ _ _ Hs1).
    rewrite rtruediv_one; [reflexivity|lra].
  - rewrite (aggregate_bound _ _ _ _ _ _ Hs2).
    rewrite rtruediv_one; [reflexivity|lra].
  - rewrite <- Hkk.
    induction HD as [|d D' [Hlen Hd] _ IH]; simpl; constructor; [|exact IH].
    now apply dtm_row_monotone.
Qed.

End RealClaims.

(** ** The estimator on concrete inputs *)

Section Examples.
Local Open Scope R_scope.

Lemma dtm_row_1_3 : dtm_row 2 1 (1 / 1) [1; 3] = 2.
Proof.
  unfold dtm_row. cbn [npow nsum ndiv of_int Arith_R map rsum fold_right].
  rewrite !rpow_one_r by lra.
  replace (1 / 1) with 1 by lra.
  replace ((1 + (3 + 0)) / 2) with 2 by lra.
  apply rpow_one_r. lra.
Qed.

Lemma dtm_row_1 : dtm_row 2 1 (1 / 1) [1] = / 2.
Proof.
  unfold dtm_row. cbn [npow nsum ndiv of_int Arith_R map rsum fold_right].
  rewrite !rpow_one_r by lra.
  replace (1 / 1) with 1 by lra.
  replace ((1 + 0) / 2) with (/ 2) by lra.
  apply rpow_one_r. lra.
Qed.

(** C3. In "neighbors" mode the neighbor distances are exactly the first
    [k] columns of the input, and the result is the one obtained from the
    input cut to these columns, so any further column is ignored; and
    [DTM(2, 1, metric="neighbors")] maps the row [1.0, 3.0, 99.0] to
    [2.0]. *)
Theorem transform_neighbors_first_k :
  (forall (F : Type) (A : Arith F) (KNN E : Type)
          (KNN_transform : KNN -> list (list F) -> E + list (list F))
          (self : positive) (X : list (list F))
          (h : gmap positive (DTM F KNN)) (o : DTM F KNN),
      h !! self = Some o ->
      o.(params) !! "metric" = Some (PStr "neighbors") ->
      (0 <= o.(k))%Z ->
      neighbor_distances KNN_transform self X h
      = (inr (map (take (Z.to_nat o.(k))) X), h)
      /\ transform KNN_transform self X h
         = transform KNN_transform self (map (take (Z.to_nat o.(k))) X) h)
  /\ fst (bind (new_DTM RowProvider.KNN RowProvider.E 2 1 neighbors_opts)
               (fun self =>
                  transform RowProvider.transform self [[1; 3; 99]]) ∅)
     = inr [2].
Proof.
  split.
  - intros F A KNN E KNN_transform self X h o.
    apply transform_neighbors_take.
  - unfold bind. rewrite new_DTM_run.
    erewrite transform_neighbors_run;
      [|apply lookup_insert_eq|reflexivity].
    cbn [q k __init__ fst]. rewrite rtruediv_one by lra.
    cbn [map].
    change (slice_to 2 [1; 3; 99]) with [1; 3].
    now rewrite dtm_row_1_3.
Qed.

(** *** Where the code departs from the specification *)

(** C4 fails on the code: with [k = 2], [q = 1] and an input of a single
    column, [transform] in "neighbors" mode raises nothing and returns
    [0.5] for the row [1.0]. *)
Lemma transform_one_column_returns :
  fst (bind (new_DTM RowProvider.KNN RowProvider.E 2 1 neighbors_opts)
            (fun self => transform RowProvider.transform self [[1]]) ∅)
  = inr [/ 2].
Proof.
  unfold bind. rewrite new_DTM_run.
  erewrite transform_neighbors_run;
    [|apply lookup_insert_eq|reflexivity].
  cbn [q k __init__ fst]. rewrite rtruediv_one by lra.
  cbn [map]. change (slice_to 2 [1]) with [1].
  now rewrite dtm_row_1.
Qed.

(** C5 fails on the code: on [DTM(2)], built without a metric and never
    fitted, [transform] fails on the lookup of "metric" in the option bag,
    not on the search object; the failure is the same when a search object
    is bound to the estimator. *)
Lemma transform_unfitted_default_key_error :
  fst (bind (new_DTM RowProvider.KNN RowProvider.E 2 2 ∅)
            (fun self => transform RowProvider.transform self [[1]]) ∅)
  = inl (KeyError "metric")
  /\ fst (transform RowProvider.transform 1%positive [[1]]
             (store_of (set_knn RowProvider.KNN
                                (__init__ RowProvider.KNN 2 2 ∅) 2%Z)))
     = inl (KeyError "metric")
  /\ @KeyError RowProvider.E "metric" <> AttributeError "knn".
Proof.
  split; [|split].
  - reflexivity.
  - reflexivity.
  - discriminate.
Qed.

(** C6 fails on the code: [DTM(-1, 1, metric="neighbors")] is accepted, the
    slice [X[:, :-1]] keeps the nonnegative distances [1.0, 3.0] of the row
    [1.0, 3.0, 99.0], the order is positive, and [transform] returns
    [-4.0]. *)
Lemma transform_negative_k_negative_value :
  fst (bind (new_DTM RowProvider.KNN RowProvider.E (-1) 1 neighbors_opts)
            (fun self =>
               neighbor_distances RowProvider.transform self [[1; 3; 99]]) ∅)
  = inr [[1; 3]]
  /\ fst (bind (new_DTM RowProvider.KNN RowProvider.E (-1) 1 neighbors_opts)
               (fun self => transform RowProvider.transform self [[1; 3; 99]])
               ∅)
     = inr [-4]
  /\ -4 < 0.
Proof.
  split; [reflexivity|]. split; [|lra].
  unfold bind. rewrite new_DTM_run.
  erewrite transform_neighbors_run;
    [|apply lookup_insert_eq|reflexivity].
  cbn [q k __init__ fst]. rewrite rtruediv_one by lra.
  cbn [map]. change (slice_to (-1) [1; 3; 99]) with [1; 3].
  do 2 f_equal. unfold dtm_row.
  cbn [npow nsum ndiv of_int Arith_R map rsum fold_right].
  rewrite !rpow_one_r by lra.
  replace (1 / 1) with 1 by lra.
  replace ((1 + (3 + 0)) / -1) with (-4) by lra.
  apply rpow_neg_one. lra.
Qed.

(** C8 fails on the code: [DTM(0, 0, metric="neighbors")] is built and
    fitted without any exception, and the object stores [k = 0] and
    [q = 0]. *)
Lemma nonpositive_parameters_accepted :
  exists self h1,
    bind (new_DTM RowProvider.KNN RowProvider.E 0 0 neighbors_opts)
         (fun self => fit RowProvider.init RowProvider.fit self [[1]]) ∅
    = (inr self, h1)
    /\ h1 !! self = Some (__init__ RowProvider.KNN 0 0 neighbors_opts).
Proof.
  eexists _, _. split.
  - unfold bind. rewrite new_DTM_run.
    erewrite fit_run by apply lookup_insert_eq. reflexivity.
  - reflexivity.
Qed.

End Examples.

(** ** The order [q] and the rounding of [1.0 / q] *)

Section RoundedExponent.
Local Open Scope R_scope.

Lemma exp_le_inv x : 0 <= x < 1 -> exp x <= / (1 - x).
Proof.
  intros [Hx0 Hx1]. pose proof (exp_ineq1_le (- x)) as He.
  rewrite exp_Ropp in He.
  pose proof (exp_pos x) as Hp.
  rewrite <- (Rinv_inv (exp x)).
  apply Rinv_le_contravar; lra.
Qed.

Lemma exp_INR_mult (n : nat) y : exp (INR n * y) = exp y ^ n.
Proof.
  induction n as [|n IH].
  - simpl. rewrite Rmult_0_l. apply exp_0.
  - rewrite S_INR, Rmult_plus_distr_r, Rmult_1_l, exp_plus, IH.
    simpl. ring.
Qed.

Lemma pow_512_below_5 : (512000 / 510399) ^ 512 < 5.
Proof.
  unfold Rdiv. rewrite Rpow_mult_distr, pow_inv.
  assert (Hb : 0 < 510399 ^ 512) by (apply pow_lt; lra).
  apply (Rmult_lt_reg_r (510399 ^ 512)); [exact Hb|].
  rewrite Rmult_assoc, Rinv_l, Rmult_1_r by lra.
  rewrite !pow_IZR. rewrite <- mult_IZR. apply IZR_lt.
  vm_compute. reflexivity.
Qed.

Lemma ln_5_lower : 1601 / 1000 < ln 5.
Proof.
  apply exp_lt_inv. rewrite exp_ln by lra.
  assert (H512 : INR 512 = 512)
    by (rewrite INR_IZR_INZ; apply f_equal; reflexivity).
  replace (1601 / 1000) with (INR 512 * (1601 / 512000))
    by (rewrite H512; lra).
  rewrite exp_INR_mult.
  apply Rle_lt_trans with ((512000 / 510399) ^ 512);
    [|exact pow_512_below_5].
  apply pow_incr. split; [left; apply exp_pos|].
  replace (512000 / 510399) with (/ (1 - 1601 / 512000)) by (field; lra).
  apply exp_le_inv. lra.
Qed.

Lemma rpow_5_3 : rpow 5 3 = 125.
Proof.
  rewrite rpow_pos_base by lra.
  replace 3 with (INR 3) by (simpl; lra).
  rewrite Rpower_pow by lra. simpl. lra.
Qed.

(** [125] raised to the binary64 value of [1.0 / 3] lies below the point
    midway between [5] and the binary64 number just under it. *)
Lemma rpow_125_third : rpow 125 binary64_third < 5 - / 2251799813685248.
Proof.
  rewrite rpow_pos_base by lra. unfold Rpower, binary64_third.
  assert (Hln : ln 125 = 3 * ln 5).
  { replace 125 with (5 ^ 3) by (simpl; lra).
    rewrite ln_pow by lra. simpl. lra. }
  rewrite Hln.
  set (u := / 18014398509481984).
  replace (6004799503160661 / 18014398509481984 * (3 * ln 5))
    with (ln 5 + - (u * ln 5)) by (unfold u; field).
  rewrite exp_plus, exp_ln by lra. rewrite exp_Ropp.
  pose proof (exp_ineq1_le (u * ln 5)) as He.
  pose proof ln_5_lower as Hl.
  assert (Hu : 0 < u) by (unfold u; apply Rinv_0_lt_compat; lra).
  set (v := exp (u * ln 5)) in *.
  assert (Hv : 1 + 1601 / 1000 * u <= v).
  { assert (1601 / 1000 * u <= u * ln 5); [|lra].
    rewrite (Rmult_comm u). apply Rmult_le_compat_r; lra. }
  assert (Hv0 : 0 < v) by lra.
  apply (Rmult_lt_reg_r v); [exact Hv0|].
  rewrite Rmult_assoc, Rinv_l, Rmult_1_r by lra.
  replace (/ 2251799813685248) with (8 * u) by (unfold u; lra).
  assert (Hc : 0 < 5 - 8 * u) by (unfold u; lra).
  apply Rlt_le_trans with ((5 - 8 * u) * (1 + 1601 / 1000 * u)).
  - unfold u. lra.
  - apply Rmult_le_compat_l; lra.
Qed.

(** C7 fails on the code: for the row [5.0, 5.0] and [k = 2] the value of
    order 1 is [5], and the value of order 3 is below it.  The exponent of
    order 3 is the float [1.0 / 3], which is [binary64_third]; with it
    the result is under [5 - 2^-51] even when every other operation is
    exact, and no rounding to the nearest float brings it back to [5]. *)
Lemma order_three_below_order_one :
  Prim2SF (1 / 3)%float = S754_finite false 6004799503160661 (-54)
  /\ dtm_row 2 3 binary64_third [5; 5] < 5 - / 2251799813685248
  /\ dtm_row 2 1 (1 / 1) [5; 5] = 5
  /\ dtm_row 2 3 binary64_third [5; 5] < dtm_row 2 1 (1 / 1) [5; 5].
Proof.
  assert (H3 : dtm_row 2 3 binary64_third [5; 5]
               < 5 - / 2251799813685248).
  { unfold dtm_row. cbn [npow nsum ndiv of_int Arith_R map rsum fold_right].
    rewrite rpow_5_3. replace ((125 + (125 + 0)) / 2) with 125 by lra.
    exact rpow_125_third. }
  assert (H1 : dtm_row 2 1 (1 / 1) [5; 5] = 5).
  { unfold dtm_row. cbn [npow nsum ndiv of_int Arith_R map rsum fold_right].
    rewrite !rpow_one_r by lra. replace (1 / 1) with 1 by lra.
    replace ((5 + (5 + 0)) / 2) with 5 by lra. apply rpow_one_r. lra. }
  split; [vm_compute; reflexivity|]. split; [exact H3|].
  split; [exact H1|]. rewrite H1.
  assert (0 < / 2251799813685248) by (apply Rinv_0_lt_compat; lra). lra.
Qed.

End RoundedExponent.

(** ** The theorems at concrete inputs *)

Section Witnesses.
Local Open Scope R_scope.

Lemma row_provider_shape (n : RowProvider.KNN) (X' D' : list (list R)) :
  RowProvider.transform n X' = inr D' -> length D' = length X'.
Proof. intros [= <-]. apply length_map. Defined.


(** [fit_transform_sequential] on the same estimator. *)
Lemma fit_transform_sequential_witness :
  exists r h',
    fit RowProvider.init RowProvider.fit 1%positive [[1; 3; 99]]
        (store_of (__init__ RowProvider.KNN 2 1 neighbors_opts))
    = (inr r, h')
    /\ r = 1%positive.
Proof.
  eexists _, _. split.
  - reflexivity.
  - eapply (proj2 (fit_transform_sequential RowProvider.KNN RowProvider.E
                     RowProvider.init RowProvider.fit RowProvider.transform
                     1%positive [[1; 3; 99]]
                     (store_of
                        (__init__ RowProvider.KNN 2 1 neighbors_opts)))).
    reflexivity.
Defined.

(** [transform_neighbors_first_k]: the third column is ignored. *)
Lemma transform_neighbors_first_k_witness :
  transform RowProvider.transform 1%positive [[1; 3; 99]]
            (store_of (__init__ RowProvider.KNN 2 1 neighbors_opts))
  = transform RowProvider.transform 1%positive [[1; 3]]
              (store_of (__init__ RowProvider.KNN 2 1 neighbors_opts)).
Proof.
  apply (proj2 (proj1 transform_neighbors_first_k R Arith_R
                  RowProvider.KNN RowProvider.E RowProvider.transform
                  1%positive [[1; 3; 99]]
                  (store_of (__init__ RowProvider.KNN 2 1 neighbors_opts))
                  (__init__ RowProvider.KNN 2 1 neighbors_opts)
                  eq_refl eq_refl ltac:(simpl; lia))).
Defined.

(** [transform_neighbors_short_rows]: one column where [k = 2]. *)
Lemma transform_neighbors_short_rows_witness :
  transform RowProvider.transform 1%positive [[1]]
            (store_of (__init__ RowProvider.KNN 2 1 neighbors_opts))
  = (inr [dtm_row 2 1 (1 / 1) [1]],
     store_of (__init__ RowProvider.KNN 2 1 neighbors_opts)).
Proof.
  apply (proj2 (transform_neighbors_short_rows RowProvider.KNN RowProvider.E
                  RowProvider.transform 1%positive [[1]]
                  (store_of (__init__ RowProvider.KNN 2 1 neighbors_opts))
                  (__init__ RowProvider.KNN 2 1 neighbors_opts)
                  eq_refl eq_refl)).
  - simpl. lia.
  - constructor; [simpl; lia|constructor].
  - cbn [q __init__]. apply rtruediv_one. lra.
Defined.

(** [transform_unfitted] on [DTM(2, 2, metric="euclidean")]. *)
Lemma transform_unfitted_witness :
  transform RowProvider.transform 1%positive [[1]]
            (store_of (__init__ RowProvider.KNN 2 2 euclidean_opts))
  = (inl (AttributeError "knn"),
     store_of (__init__ RowProvider.KNN 2 2 euclidean_opts)).
Proof.
  apply (transform_unfitted RowProvider.KNN RowProvider.E
           RowProvider.transform 1%positive [[1]]
           (store_of (__init__ RowProvider.KNN 2 2 euclidean_opts))
           (__init__ RowProvider.KNN 2 2 euclidean_opts)).
  - reflexivity.
  - reflexivity.
  - discriminate.
Defined.

(** [transform_length_nonneg] on a fitted estimator of metric
    "euclidean". *)
Lemma transform_length_nonneg_witness :
  exists out,
    transform RowProvider.transform 1%positive [[1; 3; 99]]
      (store_of (set_knn RowProvider.KNN
                   (__init__ RowProvider.KNN 2 1 euclidean_opts) 2%Z))
    = (inr out,
       store_of (set_knn RowProvider.KNN
                   (__init__ RowProvider.KNN 2 1 euclidean_opts) 2%Z))
    /\ length out = 1%nat
    /\ Forall (fun v => 0 <= v) out.
Proof.
  destruct (transform_length_nonneg RowProvider.KNN RowProvider.E
              RowProvider.transform 1%positive [[1; 3; 99]]
              (store_of (set_knn RowProvider.KNN
                           (__init__ RowProvider.KNN 2 1 euclidean_opts) 2%Z))
              (set_knn RowProvider.KNN
                       (__init__ RowProvider.KNN 2 1 euclidean_opts) 2%Z)
              [[1; 3]])
    as (out & Hrun & Hlen & _ & Hpos).
  - exact row_provider_shape.
  - reflexivity.
  - reflexivity.
  - repeat constructor; lra.
  - simpl. lra.
  - exists out. split; [exact Hrun|]. split; [exact Hlen|].
    apply Hpos. simpl. lia.
Defined.

(** [dtm_monotone_in_order]: orders 1 and 2 on the distances [1, 3]. *)
Lemma dtm_monotone_in_order_witness :
  exists out1 out2,
    aggregate (E:=RowProvider.E) 1%positive [[1; 3]]
              (store_of (__init__ RowProvider.KNN 2 1 neighbors_opts))
    = (inr out1, store_of (__init__ RowProvider.KNN 2 1 neighbors_opts))
    /\ aggregate (E:=RowProvider.E) 1%positive [[1; 3]]
                 (store_of (__init__ RowProvider.KNN 2 2 neighbors_opts))
       = (inr out2, store_of (__init__ RowProvider.KNN 2 2 neighbors_opts))
    /\ Forall2 Rle out1 out2.
Proof.
  apply (dtm_monotone_in_order RowProvider.KNN RowProvider.E 1%positive
           [[1; 3]]
           (store_of (__init__ RowProvider.KNN 2 1 neighbors_opts))
           (store_of (__init__ RowProvider.KNN 2 2 neighbors_opts))
           (__init__ RowProvider.KNN 2 1 neighbors_opts)
           (__init__ RowProvider.KNN 2 2 neighbors_opts)).
  - reflexivity.
  - reflexivity.
  - reflexivity.
  - simpl. lia.
  - constructor; [|constructor]. split; [simpl; lia|].
    repeat constructor; lra.
  - simpl. lra.
Defined.

(** [construction_validates_nothing] on [DTM(0, 0, metric="neighbors")]. *)
Lemma construction_validates_nothing_witness :
  exists self h1,
    new_DTM RowProvider.KNN RowProvider.E 0 0 neighbors_opts ∅
    = (inr self, h1)
    /\ fit RowProvider.init RowProvider.fit self [[1]] h1 = (inr self, h1).
Proof.
  destruct (construction_validates_nothing RowProvider.KNN RowProvider.E
              RowProvider.init RowProvider.fit 0%Z 0 neighbors_opts
              [[1]] ∅)
    as (self & h1 & Hnew & _ & _ & Hfit & _).
  exists self, h1. split; [exact Hnew|]. apply Hfit. reflexivity.
Defined.

(** [fit_inserts_default_metric] on [DTM(2)], fitted with the example
    provider. *)
Lemma fit_inserts_default_metric_witness :
  exists r h' o',
    fit RowProvider.init RowProvider.fit 1%positive [[1; 3]]
        (store_of (__init__ RowProvider.KNN 2 2 ∅))
    = (inr r, h')
    /\ h' !! 1%positive = Some o'
    /\ o'.(params) !! "metric" = Some (PStr "euclidean").
Proof.
  assert (Hfit : exists r h',
    fit RowProvider.init RowProvider.fit 1%positive [[1; 3]]
        (store_of (__init__ RowProvider.KNN 2 2 ∅))
    = (inr r, h')).
  { eexists _, _. reflexivity. }
  destruct Hfit as (r & h' & Hfit).
  destruct (fit_inserts_default_metric RowProvider.KNN RowProvider.E
              RowProvider.init RowProvider.fit RowProvider.transform
              1%positive [[1; 3]]
              (store_of (__init__ RowProvider.KNN 2 2 ∅))
              (__init__ RowProvider.KNN 2 2 ∅) r h' eq_refl Hfit)
    as (o' & Hl & _ & Hm & _).
  exists r, h', o'. split; [exact Hfit|]. split; [exact Hl|exact Hm].
Defined.

End Witnesses.

(** ** Further properties of [fit] and [transform] *)

Section Lifecycle.
Context {F : Type} `{Arith F}.
Variable KNN : Type.
Variable E : Type.
Variable KNN_init : Z -> bool -> bool -> gmap string pyval -> E + KNN.
Variable KNN_fit : KNN -> list (list F) -> (E + unit) * KNN.
Variable KNN_transform : KNN -> list (list F) -> E + list (list F).

Implicit Types (self : positive) (X D : list (list F))
         (h : gmap positive (DTM F KNN)) (o : DTM F KNN).

Lemma with_default_metric_idem (p : gmap string pyval) :
  with_default_metric (with_default_metric p) = with_default_metric p.
Proof.
  unfold with_default_metric at 1.
  now rewrite with_default_metric_lookup.
Qed.

Lemma with_default_metric_neighbors (p : gmap string pyval) :
  with_default_metric p !! "metric" = Some (PStr "neighbors")
  <-> p !! "metric" = Some (PStr "neighbors").
Proof.
  rewrite with_default_metric_lookup.
  destruct (p !! "metric") as [v|]; simpl; split; congruence.
Qed.

(** The outcome of [fit] when a search is needed and the provider accepts
    the construction. *)
Lemma fit_outcome_search self X o n :
  o.(params) !! "metric" <> Some (PStr "neighbors") ->
  KNN_init o.(k) false true (with_default_metric o.(params)) = inr n ->
  fit_outcome KNN_init KNN_fit self X o
  = (match fst (KNN_fit n X) with
     | inl e => inl (ProviderError e)
     | inr _ => inr self
     end,
     {| k := o.(k); q := o.(q); params := with_default_metric o.(params);
        knn := Some (snd (KNN_fit n X)) |}).
Proof.
  intros Hm Hi. unfold fit_outcome. cbn [k params set_params].
  rewrite bool_decide_eq_false_2
    by (intros Hc; apply Hm; now apply with_default_metric_neighbors).
  rewrite Hi. now destruct (KNN_fit n X) as [[e|u] n'].
Qed.

(** X1. When the metric is not "neighbors" and the provider raises nothing,
    [fit] returns the estimator and binds to [knn] the search object that
    was built from the stored [k], [return_index=False],
    [return_distance=True] and the options with the metric filled in, and
    then fitted on [X].  [k], [q] and the other options are as before. *)
Theorem fit_binds_fitted_search self X h o n n' :
  h !! self = Some o ->
  o.(params) !! "metric" <> Some (PStr "neighbors") ->
  KNN_init o.(k) false true (with_default_metric o.(params)) = inr n ->
  KNN_fit n X = (inr tt, n') ->
  fit KNN_init KNN_fit self X h
  = (inr self,
     <[self := {| k := o.(k); q := o.(q);
                  params := with_default_metric o.(params);
                  knn := Some n' |}]> h).
Proof.
  intros Hs Hm Hi Hf. rewrite (fit_run _ _ _ _ _ _ _ _ Hs).
  rewrite (fit_outcome_search _ _ _ _ Hm Hi), Hf. reflexivity.
Qed.

(** X2. When the constructor of the search object raises, [fit] raises the
    same exception; the default metric has already been written to the
    options, and [knn] is what it was. *)
Theorem fit_constructor_failure self X h o e :
  h !! self = Some o ->
  o.(params) !! "metric" <> Some (PStr "neighbors") ->
  KNN_init o.(k) false true (with_default_metric o.(params)) = inl e ->
  fit KNN_init KNN_fit self X h
  = (inl (ProviderError e),
     <[self := {| k := o.(k); q := o.(q);
                  params := with_default_metric o.(params);
                  knn := o.(knn) |}]> h).
Proof.
  intros Hs Hm Hi. rewrite (fit_run _ _ _ _ _ _ _ _ Hs).
  unfold fit_outcome. cbn [k params set_params].
  rewrite bool_decide_eq_false_2
    by (intros Hc; apply Hm; now apply with_default_metric_neighbors).
  now rewrite Hi.
Qed.

(** X3. When the search object is built but its [fit] raises, [fit] raises
    the same exception and the search object stays bound to [knn], in the
    state its [fit] left it.  A later [transform] therefore does not report
    a missing attribute: it queries that object. *)
Theorem fit_failure_keeps_search_bound self X h o n e n' :
  h !! self = Some o ->
  o.(params) !! "metric" <> Some (PStr "neighbors") ->
  KNN_init o.(k) false true (with_default_metric o.(params)) = inr n ->
  KNN_fit n X = (inl e, n') ->
  exists h',
    fit KNN_init KNN_fit self X h = (inl (ProviderError e), h')
    /\ h' !! self
       = Some {| k := o.(k); q := o.(q);
                 params := with_default_metric o.(params);
                 knn := Some n' |}
    /\ forall X',
        neighbor_distances KNN_transform self X' h'
        = provider KNN E (KNN_transform n' X') h'.
Proof.
  intros Hs Hm Hi Hf. eexists. split; [|split].
  - rewrite (fit_run _ _ _ _ _ _ _ _ Hs).
    rewrite (fit_outcome_search _ _ _ _ Hm Hi), Hf. reflexivity.
  - apply lookup_insert_eq.
  - intros X'.
    destruct (with_default_metric (params o) !! "metric") as [v|] eqn:Hv.
    2:{ rewrite with_default_metric_lookup in Hv. discriminate. }
    eapply neighbor_distances_search.
    + apply lookup_insert_eq.
    + exact Hv.
    + intros ->. apply Hm. now apply with_default_metric_neighbors.
    + reflexivity.
Qed.

(** X4. When the metric given to the constructor is "neighbors", [fit]
    returns the estimator and changes nothing in the store, whatever the
    search provider would do: the provider is not called. *)
Theorem fit_neighbors_noop self X h o :
  h !! self = Some o ->
  o.(params) !! "metric" = Some (PStr "neighbors") ->
  fit KNN_init KNN_fit self X h = (inr self, h).
Proof.
  intros Hs Hm. rewrite (fit_run _ _ _ _ _ _ _ _ Hs). unfold fit_outcome.
  cbn [params set_params]. unfold with_default_metric. rewrite Hm.
  rewrite bool_decide_eq_true_2 by assumption. cbn [fst snd].
  f_equal. rewrite <- (insert_id h self o Hs) at 2. f_equal. now destruct o.
Qed.

Lemma fit_outcome_params self X o :
  params (snd (fit_outcome KNN_init KNN_fit self X o))
  = with_default_metric o.(params)
  /\ k (snd (fit_outcome KNN_init KNN_fit self X o)) = o.(k)
  /\ q (snd (fit_outcome KNN_init KNN_fit self X o)) = o.(q).
Proof.
  unfold fit_outcome. case_bool_decide; [now split|].
  destruct (KNN_init _ _ _ _); [now split|].
  now destruct (KNN_fit _ _) as [[e|u] n'].
Qed.

(** After a [fit] that returned, the outcome of a further [fit] does not
    depend on what the first one bound. *)
Lemma fit_outcome_again self X1 X2 o :
  (exists r, fst (fit_outcome KNN_init KNN_fit self X1 o) = inr r) ->
  fit_outcome KNN_init KNN_fit self X2
              (snd (fit_outcome KNN_init KNN_fit self X1 o))
  = fit_outcome KNN_init KNN_fit self X2 o.
Proof.
  intros [r Hr]. revert Hr. unfold fit_outcome at 1 3.
  cbn [k params set_params].
  case_bool_decide as Hn.
  - intros _. cbn [snd]. unfold fit_outcome. cbn [k params set_params].
    rewrite with_default_metric_idem.
    rewrite !bool_decide_eq_true_2 by assumption. reflexivity.
  - destruct (KNN_init (k o) false true (with_default_metric (params o)))
      as [e|n] eqn:Hi; [discriminate|].
    destruct (KNN_fit n X1) as [[e|u] n1]; [discriminate|].
    intros _. cbn [snd]. unfold fit_outcome.
    cbn [k params set_params set_knn].
    rewrite with_default_metric_idem.
    rewrite !bool_decide_eq_false_2 by assumption.
    rewrite Hi. now destruct (KNN_fit n X2) as [[e|u2] n2].
Qed.

(** X5. Fitting again forgets the earlier fit: after a [fit] that returned,
    a second [fit] gives the result and the store that it gives without the
    first one.  The search object is built anew from [k] and the options,
    and the default metric is not inserted twice. *)
Theorem fit_again self X1 X2 h r h1 :
  fit KNN_init KNN_fit self X1 h = (inr r, h1) ->
  fit KNN_init KNN_fit self X2 h1 = fit KNN_init KNN_fit self X2 h.
Proof.
  destruct (h !! self) as [o|] eqn:Hs.
  2:{ rewrite (fit_unbound _ _ _ _ _ _ _ Hs). discriminate. }
  rewrite (fit_run _ _ _ _ _ _ _ _ Hs). intros [= Hr <-].
  erewrite fit_run by apply lookup_insert_eq.
  rewrite (fit_run _ _ _ _ _ X2 _ _ Hs).
  rewrite fit_outcome_again by eauto.
  now rewrite insert_insert_eq.
Qed.

(** X6. [fit_transform] with a metric other than "neighbors": when the
    provider builds a search object, fits it on [X] and answers the query
    [X] with the distances [D], the result is the aggregate of each row of
    [D], computed with the fitted object, and the estimator is left fitted. *)
Theorem fit_transform_search self X h o n n' D e :
  h !! self = Some o ->
  o.(params) !! "metric" <> Some (PStr "neighbors") ->
  KNN_init o.(k) false true (with_default_metric o.(params)) = inr n ->
  KNN_fit n X = (inr tt, n') ->
  KNN_transform n' X = inr D ->
  truediv one o.(q) = Some e ->
  fit_transform KNN_init KNN_fit KNN_transform self X h
  = (inr (map (dtm_row o.(k) o.(q) e) D),
     <[self := {| k := o.(k); q := o.(q);
                  params := with_default_metric o.(params);
                  knn := Some n' |}]> h).
Proof.
  intros Hs Hm Hi Hf Ht Hq. unfold fit_transform, bind.
  rewrite (fit_run _ _ _ _ _ _ _ _ Hs).
  rewrite (fit_outcome_search _ _ _ _ Hm Hi), Hf. cbn [fst snd].
  set (o' := {| k := k o; q := q o;
                params := with_default_metric (params o);
                knn := Some n' |}).
  assert (Hs' : <[self := o']> h !! self = Some o') by apply lookup_insert_eq.
  destruct (params o' !! "metric") as [v|] eqn:Hv.
  2:{ cbn [params o'] in Hv. rewrite with_default_metric_lookup in Hv.
      discriminate. }
  assert (Hnb : v <> PStr "neighbors").
  { intros ->. apply Hm. now apply with_default_metric_neighbors. }
  pose proof (neighbor_distances_search _ _ KNN_transform self X _ o' v n'
                Hs' Hv Hnb eq_refl) as Hd.
  rewrite Ht in Hd. cbn [provider] in Hd.
  rewrite (transform_run _ _ _ _ _ _ _ _ Hs' Hd).
  cbn [q k o']. now rewrite Hq.
Qed.

(** X7. Whatever [fit] does, return or raise, it touches no other object of
    the store, and on its own estimator it keeps [k] and [q] and changes the
    options at most by the default metric. *)
Theorem fit_frame self X h o :
  h !! self = Some o ->
  (forall l, l <> self ->
     snd (fit KNN_init KNN_fit self X h) !! l = h !! l)
  /\ exists o',
      snd (fit KNN_init KNN_fit self X h) !! self = Some o'
      /\ o'.(k) = o.(k) /\ o'.(q) = o.(q)
      /\ o'.(params) = with_default_metric o.(params).
Proof.
  intros Hs. rewrite (fit_run _ _ _ _ _ _ _ _ Hs). cbn [snd]. split.
  - intros l Hl. now apply lookup_insert_ne.
  - eexists. split; [apply lookup_insert_eq|].
    destruct (fit_outcome_params self X o) as (Hp & Hk & Hq). auto.
Qed.

(** X8. Estimators do not share state: an estimator built while another
    exists gets a reference of its own, and fitting the new one leaves the
    other exactly as it was. *)
Theorem estimators_independent kv qv kwargs X h l o :
  h !! l = Some o ->
  exists self h1,
    new_DTM KNN E kv qv kwargs h = (inr self, h1)
    /\ self <> l
    /\ h1 !! l = Some o
    /\ snd (fit KNN_init KNN_fit self X h1) !! l = Some o.
Proof.
  intros Hl. exists (fresh (dom h)), (<[fresh (dom h) := __init__ KNN kv qv kwargs]> h).
  assert (Hne : fresh (dom h) <> l).
  { intros Heq. pose proof (is_fresh (dom h)) as Hf. rewrite Heq in Hf.
    apply Hf. apply elem_of_dom. eauto. }
  assert (Hl1 : <[fresh (dom h) := __init__ KNN kv qv kwargs]> h !! l = Some o)
    by (rewrite lookup_insert_ne by assumption; exact Hl).
  split; [reflexivity|]. split; [exact Hne|]. split; [exact Hl1|].
  erewrite fit_run by apply lookup_insert_eq. cbn [snd].
  rewrite lookup_insert_ne by assumption. exact Hl1.
Qed.

(** X9. With a metric other than "neighbors" and a bound search object, an
    exception of the provider's [transform] reaches the caller unchanged and
    comes first: it is raised whatever [q] is, and the store is as before. *)
Theorem transform_provider_failure self X h o v n e :
  h !! self = Some o ->
  o.(params) !! "metric" = Some v -> v <> PStr "neighbors" ->
  o.(knn) = Some n ->
  KNN_transform n X = inl e ->
  transform KNN_transform self X h = (inl (ProviderError e), h).
Proof.
  intros Hs Hm Hv Hn Ht. unfold transform, bind.
  rewrite (neighbor_distances_search _ _ _ _ _ _ _ _ _ Hs Hm Hv Hn), Ht.
  reflexivity.
Qed.

(** X10. In "neighbors" mode each row is treated on its own: the result on
    a batch made of two arrays is the result on the first followed by the
    result on the second. *)
Theorem transform_neighbors_app self X Y h o a b :
  h !! self = Some o ->
  o.(params) !! "metric" = Some (PStr "neighbors") ->
  transform KNN_transform self X h = (inr a, h) ->
  transform KNN_transform self Y h = (inr b, h) ->
  transform KNN_transform self (X ++ Y)%list h = (inr (a ++ b)%list, h).
Proof.
  intros Hs Hm. rewrite !(transform_neighbors_run _ _ _ _ _ _ _ Hs Hm).
  destruct (truediv one (q o)) as [e|]; [|discriminate].
  intros [= <-] [= <-]. now rewrite map_app.
Qed.

(** X19. In "neighbors" mode no fit is needed: [fit_transform] gives what
    [transform] alone gives, result and store, on every input. *)
Theorem fit_transform_neighbors self X h o :
  h !! self = Some o ->
  o.(params) !! "metric" = Some (PStr "neighbors") ->
  fit_transform KNN_init KNN_fit KNN_transform self X h
  = transform KNN_transform self X h.
Proof.
  intros Hs Hm. unfold fit_transform, bind at 1.
  rewrite (fit_run _ _ _ _ _ _ _ _ Hs). unfold fit_outcome.
  cbn [params set_params]. unfold with_default_metric. rewrite Hm.
  rewrite bool_decide_eq_true_2 by assumption. cbn [fst snd].
  replace (set_params KNN o (params o)) with o by now destruct o.
  now rewrite insert_id.
Qed.

(** X18. When the division [1.0 / q] raises, as it does when [q] is the
    built-in integer [0] or float [0.0] (a numpy scalar zero does not
    raise), [transform] in "neighbors" mode raises [ZeroDivisionError] on
    every input, the empty array included: the division is made once for
    the whole array, after the distances are cut and before any value is
    returned.  The store is as before. *)
Theorem transform_order_zero self X h o :
  h !! self = Some o ->
  o.(params) !! "metric" = Some (PStr "neighbors") ->
  truediv one o.(q) = None ->
  transform KNN_transform self X h = (inl ZeroDivisionError, h).
Proof.
  intros Hs Hm Hq. rewrite (transform_neighbors_run _ _ _ _ _ _ _ Hs Hm).
  now rewrite Hq.
Qed.

End Lifecycle.

(** ** Further properties of the aggregate on real numbers *)

Section RealAggregate.
Local Open Scope R_scope.

Lemma rpow_eq_0 x e : 0 <= x -> rpow x e = 0 -> x = 0.
Proof.
  intros [Hx | <-] He; [|reflexivity].
  pose proof (rpow_pos x e Hx). lra.
Qed.

Lemma rpow_inv_r x e : 0 <= x -> 0 < e -> rpow (rpow x e) (1 / e) = x.
Proof.
  intros Hx He. rewrite rpow_rpow; [|assumption|lra|].
  - replace (e * (1 / e)) with 1 by (field; lra). now apply rpow_one_r.
  - unfold Rdiv. rewrite Rmult_1_l. apply Rinv_neq_0_compat. lra.
Qed.

Lemma inv_order_pos e : 0 < e -> 0 < 1 / e.
Proof.
  intros He. unfold Rdiv. rewrite Rmult_1_l. now apply Rinv_0_lt_compat.
Qed.

Lemma rpow_two x : 0 <= x -> rpow x 2 = x * x.
Proof.
  intros [Hx | <-].
  - rewrite rpow_pos_base by assumption.
    change 2 with (INR 2). rewrite Rpower_pow by assumption. simpl. ring.
  - rewrite rpow_zero_base by lra. ring.
Qed.

Lemma rpow_half x : 0 <= x -> rpow x (1 / 2) = sqrt x.
Proof.
  intros [Hx | <-].
  - rewrite rpow_pos_base by assumption.
    replace (1 / 2) with (/ 2) by lra. now apply Rpower_sqrt.
  - rewrite rpow_zero_base by lra. now rewrite sqrt_0.
Qed.

Lemma rsum_eq_0 l :
  Forall (fun x => 0 <= x) l -> rsum l = 0 -> Forall (fun x => x = 0) l.
Proof.
  induction 1 as [|x l Hx Hl IH]; simpl; intros Hs; constructor.
  - pose proof (rsum_nonneg l Hl). lra.
  - apply IH. pose proof (rsum_nonneg l Hl). lra.
Qed.

Lemma rsum_perm l l' : Permutation l l' -> rsum l = rsum l'.
Proof.
  induction 1 as [|x l l' _ IH|x y l|l l' l'' _ IH1 _ IH2]; simpl.
  - reflexivity.
  - now rewrite IH.
  - ring.
  - now rewrite IH1.
Qed.

(** Sum of the powers of a list whose entries lie in an interval. *)
Lemma rsum_pow_bounds l lo hi e :
  0 <= lo -> 0 < e -> Forall (fun x => lo <= x <= hi) l ->
  INR (length l) * rpow lo e <= rsum (map (fun x => rpow x e) l)
  /\ rsum (map (fun x => rpow x e) l) <= INR (length l) * rpow hi e.
Proof.
  intros Hlo He. induction 1 as [|x l [Hx1 Hx2] _ [IH1 IH2]].
  - simpl. lra.
  - cbn [length map rsum fold_right]. rewrite S_INR.
    fold (rsum (map (fun x => rpow x e) l)).
    pose proof (rpow_le_base lo x e (conj Hlo Hx1) He).
    assert (0 <= x) by lra.
    pose proof (rpow_le_base x hi e (conj H0 Hx2) He). lra.
Qed.

(** The average over [kv] of the powers, written with the row. *)
Lemma dtm_row_unfold (kv : Z) (qv e : R) (d : list R) :
  dtm_row kv qv e d = rpow (rsum (map (fun x => rpow x qv) d) / IZR kv) e.
Proof. reflexivity. Qed.

Lemma dtm_row_upper (kv : Z) (qv hi : R) (d : list R) :
  (1 <= kv)%Z -> (length d <= Z.to_nat kv)%nat -> 0 < qv -> 0 <= hi ->
  Forall (fun x => 0 <= x <= hi) d ->
  dtm_row kv qv (1 / qv) d <= hi.
Proof.
  intros Hk Hlen Hq Hhi Hd. rewrite dtm_row_unfold.
  assert (HK : 1 <= IZR kv) by now apply IZR_le.
  destruct (rsum_pow_bounds d 0 hi qv (Rle_refl 0) Hq Hd) as [_ Hup].
  assert (Hnn : Forall (fun x => 0 <= x) d)
    by (eapply Forall_impl; [exact Hd|]; cbv beta; intros; lra).
  pose proof (rsum_pow_nonneg d qv Hnn) as Hs0.
  pose proof (rpow_nonneg hi qv Hhi) as Hh0.
  assert (HlenR : INR (length d) <= IZR kv).
  { rewrite <- (Z2Nat.id kv) at 1 by lia.
    rewrite <- INR_IZR_INZ. now apply le_INR. }
  assert (Hm : 0 <= rsum (map (fun x => rpow x qv) d) / IZR kv
               <= rpow hi qv).
  { split.
    - apply Rmult_le_pos; [assumption|]. left. apply Rinv_0_lt_compat. lra.
    - apply (Rmult_le_reg_r (IZR kv)); [lra|].
      unfold Rdiv. rewrite Rmult_assoc, Rinv_l, Rmult_1_r by lra.
      assert (INR (length d) * rpow hi qv <= IZR kv * rpow hi qv)
        by (apply Rmult_le_compat_r; assumption).
      lra. }
  rewrite <- (rpow_inv_r hi qv Hhi Hq).
  apply rpow_le_base; [exact Hm|now apply inv_order_pos].
Qed.

Lemma dtm_row_lower (kv : Z) (qv lo : R) (d : list R) :
  (1 <= kv)%Z -> length d = Z.to_nat kv -> 0 < qv -> 0 <= lo ->
  Forall (fun x => lo <= x) d ->
  lo <= dtm_row kv qv (1 / qv) d.
Proof.
  intros Hk Hlen Hq Hlo Hd. rewrite dtm_row_unfold.
  assert (HK : 1 <= IZR kv) by now apply IZR_le.
  assert (Hd' : Forall (fun x => lo <= x <= x) d)
    by (eapply Forall_impl; [exact Hd|]; cbv beta; intros; lra).
  assert (Hlow : INR (length d) * rpow lo qv
                 <= rsum (map (fun x => rpow x qv) d)).
  { clear Hlen. induction Hd as [|x d Hx _ IH].
    - simpl. lra.
    - cbn [length map rsum fold_right]. rewrite S_INR.
      fold (rsum (map (fun x => rpow x qv) d)).
      pose proof (rpow_le_base lo x qv (conj Hlo Hx) Hq).
      assert (Forall (fun x => lo <= x <= x) d) by now inversion Hd'.
      specialize (IH H0). lra. }
  assert (HlenR : INR (length d) = IZR kv).
  { rewrite Hlen, INR_IZR_INZ, Z2Nat.id by lia. reflexivity. }
  rewrite HlenR in Hlow.
  pose proof (rpow_nonneg lo qv Hlo) as Hl0.
  rewrite <- (rpow_inv_r lo qv Hlo Hq) at 1.
  apply rpow_le_base; [|now apply inv_order_pos].
  split; [assumption|].
  apply (Rmult_le_reg_r (IZR kv)); [lra|].
  unfold Rdiv. rewrite Rmult_assoc, Rinv_l, Rmult_1_r by lra. lra.
Qed.

Lemma dtm_row_scale (kv : Z) (qv c : R) (d : list R) :
  (1 <= kv)%Z -> 0 < qv -> 0 <= c -> Forall (fun x => 0 <= x) d ->
  dtm_row kv qv (1 / qv) (map (fun x => c * x) d)
  = c * dtm_row kv qv (1 / qv) d.
Proof.
  intros Hk Hq Hc Hd. rewrite !dtm_row_unfold.
  assert (HK : 1 <= IZR kv) by now apply IZR_le.
  pose proof (inv_order_pos _ Hq) as He.
  assert (Hsum : rsum (map (fun x => rpow x qv) (map (fun x => c * x) d))
                 = rpow c qv * rsum (map (fun x => rpow x qv) d)).
  { induction Hd as [|x d Hx _ IH]; simpl.
    - ring.
    - fold (rsum (map (fun x => rpow x qv) d)).
      fold (rsum (map (fun x => rpow x qv) (map (fun x => c * x) d))).
      rewrite IH. destruct Hc as [Hc | <-].
      + rewrite rpow_scale by lra. ring.
      + rewrite Rmult_0_l, rpow_zero_base by lra. ring. }
  rewrite Hsum.
  assert (Hm : 0 <= rsum (map (fun x => rpow x qv) d) / IZR kv).
  { apply Rmult_le_pos; [now apply rsum_pow_nonneg|].
    left. apply Rinv_0_lt_compat. lra. }
  replace (rpow c qv * rsum (map (fun x => rpow x qv) d) / IZR kv)
    with (rpow c qv * (rsum (map (fun x => rpow x qv) d) / IZR kv))
    by (unfold Rdiv; ring).
  destruct Hc as [Hc | <-].
  - rewrite rpow_scale; [|now apply rpow_pos|assumption|lra].
    rewrite rpow_inv_r by lra. reflexivity.
  - rewrite (rpow_zero_base qv) by lra. rewrite !Rmult_0_l.
    apply rpow_zero_base. lra.
Qed.

Lemma dtm_row_perm (kv : Z) (qv e : R) (d d' : list R) :
  Permutation d d' -> dtm_row kv qv e d = dtm_row kv qv e d'.
Proof.
  intros Hp. rewrite !dtm_row_unfold. do 2 f_equal.
  apply rsum_perm. now apply Permutation_map.
Qed.

Lemma dtm_row_mono (kv : Z) (qv : R) (d d' : list R) :
  (1 <= kv)%Z -> 0 < qv -> Forall2 (fun x y => 0 <= x <= y) d d' ->
  dtm_row kv qv (1 / qv) d <= dtm_row kv qv (1 / qv) d'.
Proof.
  intros Hk Hq Hdd. rewrite !dtm_row_unfold.
  assert (HK : 1 <= IZR kv) by now apply IZR_le.
  assert (Hs : 0 <= rsum (map (fun x => rpow x qv) d)
               <= rsum (map (fun x => rpow x qv) d')).
  { induction Hdd as [|x y d d' [Hx Hxy] _ [IH1 IH2]]; simpl; [lra|].
    pose proof (rpow_nonneg x qv Hx).
    pose proof (rpow_le_base x y qv (conj Hx Hxy) Hq).
    fold (rsum (map (fun x => rpow x qv) d)).
    fold (rsum (map (fun x => rpow x qv) d')). lra. }
  assert (Hi : 0 < / IZR kv) by (apply Rinv_0_lt_compat; lra).
  apply rpow_le_base; [|now apply inv_order_pos].
  split.
  - apply Rmult_le_pos; lra.
  - apply Rmult_le_compat_r; lra.
Qed.

Lemma dtm_row_eq_0 (kv : Z) (qv : R) (d : list R) :
  (1 <= kv)%Z -> 0 < qv -> Forall (fun x => 0 <= x) d ->
  dtm_row kv qv (1 / qv) d = 0 <-> Forall (fun x => x = 0) d.
Proof.
  intros Hk Hq Hd. rewrite dtm_row_unfold.
  assert (HK : 1 <= IZR kv) by now apply IZR_le.
  assert (Hi : 0 < / IZR kv) by (apply Rinv_0_lt_compat; lra).
  pose proof (inv_order_pos _ Hq) as He.
  pose proof (rsum_pow_nonneg d qv Hd) as Hs0.
  split.
  - intros Hz. apply rpow_eq_0 in Hz; [|apply Rmult_le_pos; lra].
    assert (Hs : rsum (map (fun x => rpow x qv) d) = 0).
    { apply Rmult_integral in Hz. lra. }
    assert (Hp : Forall (fun x => 0 <= x) (map (fun x => rpow x qv) d)).
    { clear Hs Hz Hs0. induction Hd as [|x d Hx _ IH]; simpl; constructor.
      - now apply rpow_nonneg.
      - exact IH. }
    pose proof (rsum_eq_0 _ Hp Hs) as Hall. clear Hs Hz Hs0 Hp.
    induction Hd as [|x d Hx _ IH]; constructor.
    + inversion Hall; subst. now apply (rpow_eq_0 x qv).
    + apply IH. now inversion Hall.
  - intros Hall.
    assert (Hs : rsum (map (fun x => rpow x qv) d) = 0).
    { clear Hs0 Hd. induction Hall as [|x d -> _ IH]; simpl; [reflexivity|].
      fold (rsum (map (fun x => rpow x qv) d)).
      rewrite IH, rpow_zero_base by lra. ring. }
    rewrite Hs. unfold Rdiv. rewrite Rmult_0_l. apply rpow_zero_base. lra.
Qed.

End RealAggregate.

Section RealAggregateResults.
Local Open Scope R_scope.

Variable KNN : Type.
Variable E : Type.
Variable KNN_transform : KNN -> list (list R) -> E + list (list R).

Implicit Types (self : positive) (D : list (list R))
         (h : gmap positive (DTM R KNN)) (o : DTM R KNN).

(** The aggregation on real numbers, for an order that is not zero. *)
Lemma aggregate_real self D h o :
  h !! self = Some o -> o.(q) <> 0 ->
  aggregate (E:=E) self D h
  = (inr (map (dtm_row o.(k) o.(q) (1 / o.(q))) D), h).
Proof.
  intros Hs Hq. rewrite (aggregate_bound _ _ _ _ _ _ Hs).
  now rewrite rtruediv_one.
Qed.

Lemma Forall_map_rel {A B} (P : A -> Prop) (Q : B -> Prop) (f : A -> B)
      (l : list A) :
  (forall a, P a -> Q (f a)) -> Forall P l -> Forall Q (map f l).
Proof.
  intros Hf. induction 1; simpl; constructor; auto.
Qed.

(** X11. Every value lies between the smallest and the largest of the
    distances it aggregates: for rows of exactly [k] distances in
    [[lo, hi]], [0 <= lo], the values are in [[lo, hi]]. *)
Theorem aggregate_between_bounds self D h o lo hi :
  h !! self = Some o ->
  (1 <= o.(k))%Z -> 0 < o.(q) -> 0 <= lo ->
  Forall (fun d => length d = Z.to_nat o.(k)
                   /\ Forall (fun x => lo <= x <= hi) d) D ->
  exists out,
    aggregate (E:=E) self D h = (inr out, h)
    /\ Forall (fun v => lo <= v <= hi) out.
Proof.
  intros Hs Hk Hq Hlo HD. eexists. split.
  - apply (aggregate_real _ _ _ _ Hs). lra.
  - eapply Forall_map_rel; [|exact HD]. cbv beta. intros d [Hlen Hd].
    assert (Hhi : 0 <= hi).
    { destruct Hd as [|x d [Hx1 Hx2] _]; [simpl in Hlen; lia|lra]. }
    split.
    + apply dtm_row_lower; try assumption.
      eapply Forall_impl; [exact Hd|]. cbv beta. intros; lra.
    + apply dtm_row_upper; try assumption; [lia|].
      eapply Forall_impl; [exact Hd|]. cbv beta. intros; lra.
Qed.

(** X12. A row made of [k] copies of one distance [c >= 0] aggregates to
    [c], for every order [q > 0]; with [k = 1] the value is the distance to
    the nearest neighbor. *)
Theorem aggregate_constant_rows self (cs : list R) h o :
  h !! self = Some o ->
  (1 <= o.(k))%Z -> 0 < o.(q) ->
  Forall (fun c => 0 <= c) cs ->
  aggregate (E:=E) self (map (replicate (Z.to_nat o.(k))) cs) h
  = (inr cs, h).
Proof.
  intros Hs Hk Hq Hcs. rewrite (aggregate_real _ _ _ _ Hs) by lra.
  do 2 f_equal. rewrite map_map.
  induction Hcs as [|c cs Hc _ IH]; [reflexivity|]. cbn [map]. rewrite IH.
  f_equal. apply Rle_antisym.
  - apply dtm_row_upper; try assumption.
    + now rewrite length_replicate.
    + apply Forall_replicate. lra.
  - apply dtm_row_lower; try assumption.
    + apply length_replicate.
    + apply Forall_replicate. lra.
Qed.

(** X13. The aggregate is positively homogeneous: multiplying every
    distance by [c >= 0] multiplies every value by [c]. *)
Theorem aggregate_scale self D h o c :
  h !! self = Some o ->
  (1 <= o.(k))%Z -> 0 < o.(q) -> 0 <= c ->
  Forall (Forall (fun x => 0 <= x)) D ->
  exists out,
    aggregate (E:=E) self D h = (inr out, h)
    /\ aggregate (E:=E) self (map (map (fun x => c * x)) D) h
       = (inr (map (fun v => c * v) out), h).
Proof.
  intros Hs Hk Hq Hc HD. eexists. split.
  - apply (aggregate_real _ _ _ _ Hs). lra.
  - rewrite (aggregate_real _ _ _ _ Hs) by lra. do 2 f_equal.
    rewrite !map_map.
    induction HD as [|d D Hd _ IH]; [reflexivity|]. cbn [map]. rewrite IH.
    f_equal. now apply dtm_row_scale.
Qed.

(** X14. The order of the distances inside a row does not matter: rows that
    are permutations of each other give the same result, so the distances
    need not be sorted. *)
Theorem aggregate_permutation self D D' h :
  Forall2 (fun d d' => Permutation d d') D D' ->
  aggregate (E:=E) (KNN:=KNN) self D h = aggregate self D' h.
Proof.
  intros HD. destruct (h !! self) as [o|] eqn:Hs.
  - rewrite !(aggregate_bound _ _ _ _ _ _ Hs).
    destruct (truediv one (q o)) as [e|]; [|reflexivity].
    do 2 f_equal. induction HD as [|d d' D D' Hp _ IH]; [reflexivity|].
    simpl. rewrite IH. f_equal. now apply dtm_row_perm.
  - unfold aggregate, bind. now rewrite (deref_unbound _ _ _ _ Hs).
Qed.

(** X15. The aggregate is monotone in the distances: if every distance of
    [D'] is at least the one of [D] at the same place, every value on [D']
    is at least the one on [D]. *)
Theorem aggregate_monotone self D D' h o :
  h !! self = Some o ->
  (1 <= o.(k))%Z -> 0 < o.(q) ->
  Forall2 (Forall2 (fun x y => 0 <= x <= y)) D D' ->
  exists out out',
    aggregate (E:=E) self D h = (inr out, h)
    /\ aggregate (E:=E) self D' h = (inr out', h)
    /\ Forall2 Rle out out'.
Proof.
  intros Hs Hk Hq HD. eexists _, _. split; [|split].
  - apply (aggregate_real _ _ _ _ Hs). lra.
  - apply (aggregate_real _ _ _ _ Hs). lra.
  - induction HD as [|d d' D D' Hd _ IH]; simpl; constructor; [|exact IH].
    now apply dtm_row_mono.
Qed.

(** X16. A value is zero exactly when all the distances of its row are
    zero. *)
Theorem aggregate_zero_iff self D h o :
  h !! self = Some o ->
  (1 <= o.(k))%Z -> 0 < o.(q) ->
  Forall (Forall (fun x => 0 <= x)) D ->
  exists out,
    aggregate (E:=E) self D h = (inr out, h)
    /\ Forall2 (fun d v => v = 0 <-> Forall (fun x => x = 0) d) D out.
Proof.
  intros Hs Hk Hq HD. eexists. split.
  - apply (aggregate_real _ _ _ _ Hs). lra.
  - induction HD as [|d D Hd _ IH]; simpl; constructor; [|exact IH].
    now apply dtm_row_eq_0.
Qed.

(** X17. With the default order [q = 2] the value is the root mean square:
    the square root of the sum of the squared distances divided by [k]. *)
Theorem aggregate_order_two self D h o :
  h !! self = Some o ->
  (1 <= o.(k))%Z -> o.(q) = 2 ->
  Forall (Forall (fun x => 0 <= x)) D ->
  aggregate (E:=E) self D h
  = (inr (map (fun d => sqrt (rsum (map (fun x => x * x) d) / IZR o.(k))) D),
     h).
Proof.
  intros Hs Hk Hq HD. rewrite (aggregate_real _ _ _ _ Hs) by lra.
  do 2 f_equal. rewrite Hq.
  assert (HK : 1 <= IZR (k o)) by now apply IZR_le.
  induction HD as [|d D Hd _ IH]; [reflexivity|]. cbn [map]. rewrite IH.
  f_equal. rewrite dtm_row_unfold.
  assert (Hsq : map (fun x => rpow x 2) d = map (fun x => x * x) d).
  { clear IH. induction Hd as [|x d Hx _ IHd]; [reflexivity|].
    simpl. rewrite IHd. f_equal. now apply rpow_two. }
  rewrite Hsq. apply rpow_half.
  apply Rmult_le_pos.
  - rewrite <- Hsq. now apply rsum_pow_nonneg.
  - left. apply Rinv_0_lt_compat. lra.
Qed.

End RealAggregateResults.

(** ** The further properties at concrete inputs *)

Section MoreWitnesses.
Local Open Scope R_scope.

Lemma fit_binds_fitted_search_witness :
  exists h',
    fit RowProvider.init RowProvider.fit 1%positive [[1; 3]]
        (store_of (__init__ RowProvider.KNN 2 2 ∅))
    = (inr 1%positive, h')
    /\ (knn <$> h' !! 1%positive) = Some (Some 2%Z).
Proof.
  eexists. split.
  - apply (fit_binds_fitted_search RowProvider.KNN RowProvider.E
             RowProvider.init RowProvider.fit 1%positive [[1; 3]]
             (store_of (__init__ RowProvider.KNN 2 2 ∅))
             (__init__ RowProvider.KNN 2 2 ∅) 2%Z 2%Z).
    + reflexivity.
    + discriminate.
    + reflexivity.
    + reflexivity.
  - reflexivity.
Defined.

Lemma fit_constructor_failure_witness :
  exists h',
    fit CheckedProvider.init CheckedProvider.fit 1%positive [[1; 3]]
        (store_of (__init__ RowProvider.KNN 0 2 ∅))
    = (inl (ProviderError "k must be positive"), h')
    /\ (knn <$> h' !! 1%positive) = Some None.
Proof.
  eexists. split.
  - apply (fit_constructor_failure CheckedProvider.KNN CheckedProvider.E
             CheckedProvider.init CheckedProvider.fit 1%positive [[1; 3]]
             (store_of (__init__ RowProvider.KNN 0 2 ∅))
             (__init__ RowProvider.KNN 0 2 ∅) "k must be positive").
    + reflexivity.
    + discriminate.
    + reflexivity.
  - reflexivity.
Defined.

Lemma fit_failure_keeps_search_bound_witness :
  exists h',
    fit CheckedProvider.init CheckedProvider.fit 1%positive []
        (store_of (__init__ RowProvider.KNN 2 2 ∅))
    = (inl (ProviderError "no reference points"), h')
    /\ exists o', h' !! 1%positive = Some o' /\ knn o' = Some 2%Z.
Proof.
  destruct (fit_failure_keeps_search_bound CheckedProvider.KNN
              CheckedProvider.E CheckedProvider.init CheckedProvider.fit
              CheckedProvider.transform 1%positive []
              (store_of (__init__ RowProvider.KNN 2 2 ∅))
              (__init__ RowProvider.KNN 2 2 ∅) 2%Z "no reference points" 2%Z)
    as (h' & Hfit & Hl & _).
  - reflexivity.
  - discriminate.
  - reflexivity.
  - reflexivity.
  - exists h'. split; [exact Hfit|]. eexists. split; [exact Hl|reflexivity].
Defined.

Lemma fit_neighbors_noop_witness :
  fit CheckedProvider.init CheckedProvider.fit 1%positive []
      (store_of (__init__ RowProvider.KNN 0 1 neighbors_opts))
  = (inr 1%positive, store_of (__init__ RowProvider.KNN 0 1 neighbors_opts)).
Proof.
  apply (fit_neighbors_noop CheckedProvider.KNN CheckedProvider.E
           CheckedProvider.init CheckedProvider.fit 1%positive []
           (store_of (__init__ RowProvider.KNN 0 1 neighbors_opts))
           (__init__ RowProvider.KNN 0 1 neighbors_opts)).
  - reflexivity.
  - reflexivity.
Defined.

Lemma fit_again_witness :
  exists h1,
    fit RowProvider.init RowProvider.fit 1%positive [[1; 3]]
        (store_of (__init__ RowProvider.KNN 2 2 ∅))
    = (inr 1%positive, h1)
    /\ fit RowProvider.init RowProvider.fit 1%positive [[5; 7]] h1
       = fit RowProvider.init RowProvider.fit 1%positive [[5; 7]]
             (store_of (__init__ RowProvider.KNN 2 2 ∅)).
Proof.
  eexists. split.
  - reflexivity.
  - eapply (fit_again RowProvider.KNN RowProvider.E RowProvider.init
              RowProvider.fit 1%positive [[1; 3]] [[5; 7]]).
    reflexivity.
Defined.

Lemma fit_transform_search_witness :
  exists h',
    fit_transform RowProvider.init RowProvider.fit RowProvider.transform
                  1%positive [[1; 3; 99]]
                  (store_of (__init__ RowProvider.KNN 2 1 euclidean_opts))
    = (inr [dtm_row 2 1 (1 / 1) [1; 3]], h').
Proof.
  eexists.
  apply (fit_transform_search RowProvider.KNN RowProvider.E RowProvider.init
           RowProvider.fit RowProvider.transform 1%positive [[1; 3; 99]]
           (store_of (__init__ RowProvider.KNN 2 1 euclidean_opts))
           (__init__ RowProvider.KNN 2 1 euclidean_opts) 2%Z 2%Z
           [[1; 3]] (1 / 1)).
  - reflexivity.
  - discriminate.
  - reflexivity.
  - reflexivity.
  - reflexivity.
  - cbn [q __init__]. apply rtruediv_one. lra.
Defined.

Lemma fit_frame_witness :
  exists o',
    snd (fit CheckedProvider.init CheckedProvider.fit 1%positive []
             (store_of (__init__ RowProvider.KNN 2 2 ∅))) !! 1%positive
    = Some o'
    /\ o'.(k) = 2%Z /\ o'.(q) = 2
    /\ o'.(params) = with_default_metric ∅.
Proof.
  destruct (fit_frame CheckedProvider.KNN CheckedProvider.E
              CheckedProvider.init CheckedProvider.fit 1%positive []
              (store_of (__init__ RowProvider.KNN 2 2 ∅))
              (__init__ RowProvider.KNN 2 2 ∅) eq_refl)
    as (_ & o' & Hl & Hk & Hq & Hp).
  exists o'. auto.
Defined.

Lemma estimators_independent_witness :
  exists self h1,
    new_DTM RowProvider.KNN RowProvider.E 3 2 ∅
            (store_of (__init__ RowProvider.KNN 2 1 neighbors_opts))
    = (inr self, h1)
    /\ self <> 1%positive
    /\ snd (fit RowProvider.init RowProvider.fit self [[1; 3]] h1)
         !! 1%positive
       = Some (__init__ RowProvider.KNN 2 1 neighbors_opts).
Proof.
  destruct (estimators_independent RowProvider.KNN RowProvider.E
              RowProvider.init RowProvider.fit 3%Z 2 ∅ [[1; 3]]
              (store_of (__init__ RowProvider.KNN 2 1 neighbors_opts))
              1%positive (__init__ RowProvider.KNN 2 1 neighbors_opts)
              eq_refl)
    as (self & h1 & Hnew & Hne & _ & Hfit).
  exists self, h1. auto.
Defined.

Lemma transform_provider_failure_witness :
  transform CheckedProvider.transform 1%positive [[1]]
            (store_of (set_knn RowProvider.KNN
                         (__init__ RowProvider.KNN 2 0 euclidean_opts) 2%Z))
  = (inl (ProviderError "not enough neighbors"),
     store_of (set_knn RowProvider.KNN
                 (__init__ RowProvider.KNN 2 0 euclidean_opts) 2%Z)).
Proof.
  apply (transform_provider_failure CheckedProvider.KNN CheckedProvider.E
           CheckedProvider.transform 1%positive [[1]]
           (store_of (set_knn RowProvider.KNN
                        (__init__ RowProvider.KNN 2 0 euclidean_opts) 2%Z))
           (set_knn RowProvider.KNN
                    (__init__ RowProvider.KNN 2 0 euclidean_opts) 2%Z)
           (PStr "euclidean") 2%Z "not enough neighbors").
  - reflexivity.
  - reflexivity.
  - discriminate.
  - reflexivity.
  - reflexivity.
Defined.

Lemma transform_neighbors_app_witness :
  transform RowProvider.transform 1%positive ([[1; 3; 99]] ++ [[1]])%list
            (store_of (__init__ RowProvider.KNN 2 1 neighbors_opts))
  = (inr ([dtm_row 2 1 (1 / 1) [1; 3]] ++ [dtm_row 2 1 (1 / 1) [1]])%list,
     store_of (__init__ RowProvider.KNN 2 1 neighbors_opts)).
Proof.
  apply (transform_neighbors_app RowProvider.KNN RowProvider.E
           RowProvider.transform 1%positive [[1; 3; 99]] [[1]]
           (store_of (__init__ RowProvider.KNN 2 1 neighbors_opts))
           (__init__ RowProvider.KNN 2 1 neighbors_opts)).
  - reflexivity.
  - reflexivity.
  - erewrite transform_neighbors_run by reflexivity.
    cbn [q k __init__]. rewrite rtruediv_one by lra. reflexivity.
  - erewrite transform_neighbors_run by reflexivity.
    cbn [q k __init__]. rewrite rtruediv_one by lra. reflexivity.
Defined.

Lemma aggregate_between_bounds_witness :
  exists out,
    aggregate (E:=RowProvider.E) 1%positive [[1; 3]]
              (store_of (__init__ RowProvider.KNN 2 1 neighbors_opts))
    = (inr out, store_of (__init__ RowProvider.KNN 2 1 neighbors_opts))
    /\ Forall (fun v => 1 <= v <= 3) out.
Proof.
  apply (aggregate_between_bounds RowProvider.KNN RowProvider.E 1%positive
           [[1; 3]] (store_of (__init__ RowProvider.KNN 2 1 neighbors_opts))
           (__init__ RowProvider.KNN 2 1 neighbors_opts) 1 3).
  - reflexivity.
  - simpl. lia.
  - simpl. lra.
  - lra.
  - constructor; [|constructor]. split; [reflexivity|].
    repeat constructor; lra.
Defined.

Lemma aggregate_constant_rows_witness :
  aggregate (E:=RowProvider.E) 1%positive [[5; 5]]
            (store_of (__init__ RowProvider.KNN 2 1 neighbors_opts))
  = (inr [5], store_of (__init__ RowProvider.KNN 2 1 neighbors_opts)).
Proof.
  apply (aggregate_constant_rows RowProvider.KNN RowProvider.E 1%positive
           [5] (store_of (__init__ RowProvider.KNN 2 1 neighbors_opts))
           (__init__ RowProvider.KNN 2 1 neighbors_opts)).
  - reflexivity.
  - simpl. lia.
  - simpl. lra.
  - repeat constructor; lra.
Defined.

Lemma aggregate_scale_witness :
  exists out,
    aggregate (E:=RowProvider.E) 1%positive [[1; 3]]
              (store_of (__init__ RowProvider.KNN 2 1 neighbors_opts))
    = (inr out, store_of (__init__ RowProvider.KNN 2 1 neighbors_opts))
    /\ aggregate (E:=RowProvider.E) 1%positive
                 (map (map (fun x => 2 * x)) [[1; 3]])
                 (store_of (__init__ RowProvider.KNN 2 1 neighbors_opts))
       = (inr (map (fun v => 2 * v) out),
          store_of (__init__ RowProvider.KNN 2 1 neighbors_opts)).
Proof.
  apply (aggregate_scale RowProvider.KNN RowProvider.E 1%positive
           [[1; 3]] (store_of (__init__ RowProvider.KNN 2 1 neighbors_opts))
           (__init__ RowProvider.KNN 2 1 neighbors_opts) 2).
  - reflexivity.
  - simpl. lia.
  - simpl. lra.
  - lra.
  - repeat constructor; lra.
Defined.

Lemma aggregate_permutation_witness :
  aggregate (E:=RowProvider.E) 1%positive [[1; 3]]
            (store_of (__init__ RowProvider.KNN 2 1 neighbors_opts))
  = aggregate 1%positive [[3; 1]]
              (store_of (__init__ RowProvider.KNN 2 1 neighbors_opts)).
Proof.
  apply (aggregate_permutation RowProvider.KNN RowProvider.E 1%positive
           [[1; 3]] [[3; 1]]).
  constructor; [|constructor]. apply perm_swap.
Defined.

Lemma aggregate_monotone_witness :
  exists out out',
    aggregate (E:=RowProvider.E) 1%positive [[1; 3]]
              (store_of (__init__ RowProvider.KNN 2 1 neighbors_opts))
    = (inr out, store_of (__init__ RowProvider.KNN 2 1 neighbors_opts))
    /\ aggregate (E:=RowProvider.E) 1%positive [[2; 3]]
                 (store_of (__init__ RowProvider.KNN 2 1 neighbors_opts))
       = (inr out', store_of (__init__ RowProvider.KNN 2 1 neighbors_opts))
    /\ Forall2 Rle out out'.
Proof.
  apply (aggregate_monotone RowProvider.KNN RowProvider.E 1%positive
           [[1; 3]] [[2; 3]]
           (store_of (__init__ RowProvider.KNN 2 1 neighbors_opts))
           (__init__ RowProvider.KNN 2 1 neighbors_opts)).
  - reflexivity.
  - simpl. lia.
  - simpl. lra.
  - repeat constructor; lra.
Defined.

Lemma aggregate_zero_iff_witness :
  exists out,
    aggregate (E:=RowProvider.E) 1%positive [[0; 0]]
              (store_of (__init__ RowProvider.KNN 2 1 neighbors_opts))
    = (inr out, store_of (__init__ RowProvider.KNN 2 1 neighbors_opts))
    /\ Forall2 (fun d v => v = 0 <-> Forall (fun x => x = 0) d)
               [[0; 0]] out.
Proof.
  apply (aggregate_zero_iff RowProvider.KNN RowProvider.E 1%positive
           [[0; 0]] (store_of (__init__ RowProvider.KNN 2 1 neighbors_opts))
           (__init__ RowProvider.KNN 2 1 neighbors_opts)).
  - reflexivity.
  - simpl. lia.
  - simpl. lra.
  - repeat constructor; lra.
Defined.

Lemma aggregate_order_two_witness :
  aggregate (E:=RowProvider.E) 1%positive [[1; 3]]
            (store_of (__init__ RowProvider.KNN 2 2 neighbors_opts))
  = (inr [sqrt (rsum [1 * 1; 3 * 3] / 2)],
     store_of (__init__ RowProvider.KNN 2 2 neighbors_opts)).
Proof.
  apply (aggregate_order_two RowProvider.KNN RowProvider.E 1%positive
           [[1; 3]] (store_of (__init__ RowProvider.KNN 2 2 neighbors_opts))
           (__init__ RowProvider.KNN 2 2 neighbors_opts)).
  - reflexivity.
  - simpl. lia.
  - reflexivity.
  - repeat constructor; lra.
Defined.

Lemma transform_order_zero_witness :
  transform RowProvider.transform 1%positive []
            (store_of (__init__ RowProvider.KNN 2 0 neighbors_opts))
  = (inl ZeroDivisionError,
     store_of (__init__ RowProvider.KNN 2 0 neighbors_opts)).
Proof.
  apply (transform_order_zero RowProvider.KNN RowProvider.E
           RowProvider.transform 1%positive []
           (store_of (__init__ RowProvider.KNN 2 0 neighbors_opts))
           (__init__ RowProvider.KNN 2 0 neighbors_opts)).
  - reflexivity.
  - reflexivity.
  - cbn [q __init__ truediv one Arith_R]. unfold rtruediv.
    destruct (Req_dec_T 0 0); [reflexivity|lra].
Defined.

Lemma fit_transform_neighbors_witness :
  fit_transform CheckedProvider.init CheckedProvider.fit
                CheckedProvider.transform 1%positive [[1; 3; 99]]
                (store_of (__init__ RowProvider.KNN 2 1 neighbors_opts))
  = transform CheckedProvider.transform 1%positive [[1; 3; 99]]
              (store_of (__init__ RowProvider.KNN 2 1 neighbors_opts)).
Proof.
  apply (fit_transform_neighbors CheckedProvider.KNN CheckedProvider.E
           CheckedProvider.init CheckedProvider.fit
           CheckedProvider.transform 1%positive [[1; 3; 99]]
           (store_of (__init__ RowProvider.KNN 2 1 neighbors_opts))
           (__init__ RowProvider.KNN 2 1 neighbors_opts)).
  - reflexivity.
  - reflexivity.
Defined.

End MoreWitnesses.
